(** * royale-sys: the C-ABI adapter around the Royale depth-camera SDK

    A shallow embedding of [src/royale-sys/wrapper.cpp].  The adapter is a
    set of flat C functions; each one marshals its arguments, calls into the
    SDK, and projects the SDK status to an [int].  The SDK itself is an
    external collaborator: it is taken as an interface ([Royale]) whose
    methods are state transformers over an abstract SDK state.

    The embedding keeps what the C++ has:
    - pointers are addresses ([ptr], [nullptr] is address 0);
    - out-parameters are cells of a store ([w_mem]), written with insert;
    - [new] / [new T[n]] / [delete] act on a heap of blocks ([w_heap]) that
      remembers the form of each allocation;
    - every SDK call, foreign-callback invocation and release is appended
      to a chronological trace ([w_trace]);
    - what C++ leaves undefined (a write past the end of a block, a release
      whose form differs from the allocation, a call through a dead object)
      is recorded in [w_faults] instead of being given a meaning.

    Embedded here: [DataListener], [camera_attach], [camera_get_use_cases],
    the exposure-mode and exposure-limits operations, [camera_delete], the
    status projection and the string and string-vector functions.  The
    remaining configuration calls are single [TRY]-wrapped SDK calls of the
    same shape, and the frame accessors copy SDK fields (floats included)
    into out-slots; no property below depends on them. *)

From Stdlib Require Import ZArith NArith List Strings.Byte.
From stdpp Require Import base numbers option list gmap.

Open Scope Z_scope.

(** ** Pointers and primitive values *)

Definition ptr := N.

Definition nullptr : ptr := 0%N.

(** [p != nullptr] *)
Definition non_null (p : ptr) : bool := negb (p =? nullptr)%N.

(** [reinterpret_cast] between pointer types: the address is unchanged. *)
Definition reinterpret_cast (p : ptr) : ptr := p.

#[global] Instance byte_eq_decision : EqDecision byte := Byte.byte_eq_dec.

(** [royale::String]: the characters, without a terminator. *)
Definition String := list byte.

(** [royale::String::size()] *)
Definition size (s : String) : nat := length s.

(** [royale::String::data()]: the characters followed by a null byte. *)
Definition data (s : String) : list byte := s ++ [x00].

(** [royale::CameraStatus] is a scoped enumeration over [int]: a value of
    the type is its underlying integer. *)
Record CameraStatus := mkStatus { status_value : Z }.

Definition status_eqb (a b : CameraStatus) : bool :=
  status_value a =? status_value b.

(** [static_cast<int>(status)] *)
Definition static_cast_int (s : CameraStatus) : Z := status_value s.

(** [royale::ExposureMode] *)
Inductive ExposureMode := MANUAL | AUTOMATIC.

Definition ExposureMode_eqb (a b : ExposureMode) : bool :=
  match a, b with
  | MANUAL, MANUAL | AUTOMATIC, AUTOMATIC => true
  | _, _ => false
  end.

(** [royale::Pair<uint32_t, uint32_t>] *)
Record Pair := mkPair { first : Z; second : Z }.

(** ** The SDK interface

    The methods of [royale::CameraManager] and [royale::ICameraDevice] the
    adapter calls.  A device is named by its address.  A method that takes
    a reference receives the referenced value and returns the value it
    leaves there. *)

Record Royale (St : Type) := {
  SUCCESS : CameraStatus;
  getStatusString : CameraStatus -> String;
  getConnectedCameraList : St -> list String * St;
  createCamera : String -> St -> ptr * St;
  initialize : ptr -> St -> CameraStatus * St;
  registerDataListener : ptr -> ptr -> St -> CameraStatus * St;
  unregisterDataListener : ptr -> St -> CameraStatus * St;
  destroyCameraDevice : ptr -> St -> St;
  getUseCases : ptr -> list String -> St -> CameraStatus * list String * St;
  getExposureMode : ptr -> ExposureMode -> St -> CameraStatus * ExposureMode * St;
  setExposureMode : ptr -> ExposureMode -> St -> CameraStatus * St;
  getExposureLimits : ptr -> Pair -> St -> CameraStatus * Pair * St
}.

Arguments SUCCESS {St} _.
Arguments getStatusString {St} _ _.
Arguments getConnectedCameraList {St} _ _.
Arguments createCamera {St} _ _ _.
Arguments initialize {St} _ _ _.
Arguments registerDataListener {St} _ _ _ _.
Arguments unregisterDataListener {St} _ _ _.
Arguments destroyCameraDevice {St} _ _ _.
Arguments getUseCases {St} _ _ _ _.
Arguments getExposureMode {St} _ _ _ _.
Arguments setExposureMode {St} _ _ _ _.
Arguments getExposureLimits {St} _ _ _ _.

(** ** Store, heap, trace *)

(** Contents of a caller-provided out-parameter cell. *)
Inductive val :=
  | VPtr (p : ptr)
  | VU32 (n : Z)
  | VBool (b : bool).

(** [new T] / [delete p] against [new T[n]] / [delete[] p]. *)
Inductive alloc_form := ScalarForm | ArrayForm.

Definition alloc_form_eqb (a b : alloc_form) : bool :=
  match a, b with
  | ScalarForm, ScalarForm | ArrayForm, ArrayForm => true
  | _, _ => false
  end.

(** What a heap block holds. *)
Inductive object :=
  | ObjDataListener (callback : ptr) (payload : ptr)
  | ObjChars (cells : list (option byte))
  | ObjStringVector (elems : list String).

Record block := mkBlock { blk_form : alloc_form; blk_obj : object }.

Inductive event :=
  | EvGetConnectedCameraList
  | EvCreateCamera (id : String)
  | EvInitialize (dev : ptr)
  | EvRegisterDataListener (dev : ptr) (listener : ptr)
  | EvUnregisterDataListener (dev : ptr)
  | EvDestroyCameraDevice (dev : ptr)
  | EvGetUseCases (dev : ptr)
  | EvGetExposureMode (dev : ptr)
  | EvSetExposureMode (dev : ptr) (mode : ExposureMode)
  | EvGetExposureLimits (dev : ptr)
  | EvCallback (callback : ptr) (frame : ptr) (payload : ptr)
  | EvNew (form : alloc_form) (p : ptr)
  | EvDelete (form : alloc_form) (p : ptr).

Inductive fault :=
  | OutOfBoundsWrite (p : ptr) (offset : nat) (b : byte)
  | OutOfBoundsRead (p : ptr) (index : Z)
  | MismatchedDelete (p : ptr) (allocated released : alloc_form)
  | InvalidDelete (p : ptr)
  | DeadObject (p : ptr).

Record World (St : Type) := mkWorld {
  w_sdk : St;
  w_mem : gmap ptr val;
  w_heap : gmap ptr block;
  w_trace : list event;
  w_faults : list fault
}.

Arguments mkWorld {St} _ _ _ _ _.
Arguments w_sdk {St} _.
Arguments w_mem {St} _.
Arguments w_heap {St} _.
Arguments w_trace {St} _.
Arguments w_faults {St} _.

(** ** Function bodies: state passing with early [return]

    A body of a function returning [R] threads the world and either goes on
    with a value or has executed [return code]. *)

Inductive outcome (R A : Type) :=
  | Next (a : A)
  | Return (code : R).

Arguments Next {R A} _.
Arguments Return {R A} _.

Definition body (St R A : Type) := World St -> outcome R A * World St.


Definition ret {St R A} (a : A) : body St R A := fun w => (Next a, w).

Definition return_ {St R A} (code : R) : body St R A := fun w => (Return code, w).

Definition bind {St R A B} (m : body St R A) (k : A -> body St R B) : body St R B :=
  fun w =>
    match m w with
    | (Next a, w') => k a w'
    | (Return code, w') => (Return code, w')
    end.

Notation "'let*' x := m 'in' k" := (bind m (fun x => k))
  (at level 10, x name, m at level 100, k at level 200).
Notation "m ;; k" := (bind m (fun _ => k))
  (at level 100, k at level 200, right associativity).

(** Calling a function: falling off the end of a body whose last statement
    is [return v] and returning early are the same to the caller. *)
Definition call {St R} (m : body St R R) (w : World St) : R * World St :=
  match m w with
  | (Next v, w') => (v, w')
  | (Return v, w') => (v, w')
  end.

(** A [void] function. *)
Definition call_void {St} (m : body St unit unit) (w : World St) : World St :=
  snd (call m w).

Section Adapter.

Context {St : Type} (sdk : Royale St).

(** *** World primitives *)

Definition emit {R} (e : event) : body St R unit :=
  fun w => (Next tt, mkWorld (w_sdk w) (w_mem w) (w_heap w)
                             (w_trace w ++ [e]) (w_faults w)).

Definition raise {R} (f : fault) : body St R unit :=
  fun w => (Next tt, mkWorld (w_sdk w) (w_mem w) (w_heap w)
                             (w_trace w) (w_faults w ++ [f])).

(** [*cell = v] *)
Definition store {R} (cell : ptr) (v : val) : body St R unit :=
  fun w => (Next tt, mkWorld (w_sdk w) (<[cell := v]> (w_mem w)) (w_heap w)
                             (w_trace w) (w_faults w)).

(** [*cell] for a cell of pointer type. *)
Definition load_ptr {R} (cell : ptr) : body St R ptr :=
  fun w =>
    (Next (match w_mem w !! cell with Some (VPtr p) => p | _ => nullptr end),
     w).

(** An SDK method: log the call, run it on the SDK state. *)
Definition sdk_call {R A} (e : event) (f : St -> A * St) : body St R A :=
  fun w =>
    let '(a, s') := f (w_sdk w) in
    (Next a, mkWorld s' (w_mem w) (w_heap w) (w_trace w ++ [e]) (w_faults w)).

(** The address the allocator hands out: not null and not in use. *)
Definition fresh_ptr (h : gmap ptr block) : ptr :=
  fresh ({[nullptr]} ∪ dom h).

(** [new T(...)] and [new T[n]] *)
Definition new {R} (form : alloc_form) (o : object) : body St R ptr :=
  fun w =>
    let p := fresh_ptr (w_heap w) in
    (Next p, mkWorld (w_sdk w) (w_mem w) (<[p := mkBlock form o]> (w_heap w))
                     (w_trace w ++ [EvNew form p]) (w_faults w)).

(** [delete p] ([ScalarForm]) and [delete[] p] ([ArrayForm]).  Releasing
    the null pointer does nothing. *)
Definition delete {R} (form : alloc_form) (p : ptr) : body St R unit :=
  fun w =>
    if non_null p then
      let w' := mkWorld (w_sdk w) (w_mem w) (base.delete p (w_heap w))
                        (w_trace w ++ [EvDelete form p]) (w_faults w) in
      match w_heap w !! p with
      | Some b =>
          if alloc_form_eqb (blk_form b) form then (Next tt, w')
          else raise (MismatchedDelete p (blk_form b) form) w'
      | None => raise (InvalidDelete p) w'
      end
    else (Next tt, w).

(** *** The [TRY] macro and [OK] *)

Definition TRY (m : body St Z CameraStatus) : body St Z unit :=
  let* status := m in
  if negb (status_eqb status (SUCCESS sdk))
  then return_ (static_cast_int status)
  else ret tt.

Definition OK : Z := static_cast_int (SUCCESS sdk).

(** *** [DataListener] *)

(** [DataListener::DataListener(callback, payload)] *)
Definition DataListener (callback payload : ptr) : object :=
  ObjDataListener callback payload.

(** [DataListener::onNewData(data)] on the listener at address [this]. *)
Definition onNewData (this : ptr) (data : ptr) : body St unit unit :=
  fun w =>
    match w_heap w !! this with
    | Some (mkBlock _ (ObjDataListener callback payload)) =>
        emit (EvCallback callback (reinterpret_cast data) payload) w
    | _ => raise (DeadObject this) w
    end.

Definition toCameraDevice (camera : ptr) : ptr := reinterpret_cast camera.

(** *** [camera_attach] *)

Definition camera_attach_body (callback payload camera listener : ptr)
  : body St Z Z :=
  let* connectedCameraList :=
    sdk_call EvGetConnectedCameraList (getConnectedCameraList sdk) in
  (match connectedCameraList with
   | id0 :: _ =>
       let* cameraDevice :=
         sdk_call (EvCreateCamera id0) (createCamera sdk id0) in
       store camera (VPtr (reinterpret_cast cameraDevice)) ;;
       if non_null cameraDevice then
         TRY (sdk_call (EvInitialize cameraDevice)
                (initialize sdk cameraDevice)) ;;
         let* l := new ScalarForm (DataListener callback payload) in
         store listener (VPtr l) ;;
         let* l' := load_ptr listener in
         TRY (sdk_call (EvRegisterDataListener cameraDevice l')
                (registerDataListener sdk cameraDevice l'))
       else ret tt
   | [] => ret tt
   end) ;;
  ret OK.

Definition camera_attach (callback payload camera listener : ptr)
  : World St -> Z * World St :=
  call (camera_attach_body callback payload camera listener).


(** *** Configuration operations *)

(** [camera_get_use_cases]: the SDK fills the vector behind [useCases]. *)
Definition camera_get_use_cases_body (camera useCases : ptr) : body St Z Z :=
  fun w =>
    match w_heap w !! useCases with
    | Some (mkBlock form (ObjStringVector elems)) =>
        (let* r := sdk_call (EvGetUseCases (toCameraDevice camera))
                     (getUseCases sdk (toCameraDevice camera) elems) in
         (fun w1 =>
            (Next tt,
             mkWorld (w_sdk w1) (w_mem w1)
               (<[useCases := mkBlock form (ObjStringVector (snd r))]>
                  (w_heap w1))
               (w_trace w1) (w_faults w1))) ;;
         TRY (ret (fst r)) ;;
         ret OK) w
    | _ => (raise (DeadObject useCases) ;; ret OK) w
    end.

Definition camera_get_use_cases (camera useCases : ptr)
  : World St -> Z * World St :=
  call (camera_get_use_cases_body camera useCases).

(** [camera_get_exposure_mode].  The local [exposureMode] is declared
    without an initialiser; [indeterminate] is whatever it holds when the
    SDK receives the reference. *)
Definition camera_get_exposure_mode_body (indeterminate : ExposureMode)
  (camera isManual : ptr) : body St Z Z :=
  let* r := sdk_call (EvGetExposureMode (toCameraDevice camera))
              (getExposureMode sdk (toCameraDevice camera) indeterminate) in
  let exposureMode := snd r in
  TRY (ret (fst r)) ;;
  store isManual (VBool (ExposureMode_eqb exposureMode MANUAL)) ;;
  ret OK.

Definition camera_get_exposure_mode (indeterminate : ExposureMode)
  (camera isManual : ptr) : World St -> Z * World St :=
  call (camera_get_exposure_mode_body indeterminate camera isManual).

Definition camera_set_exposure_mode_body (camera : ptr) (isManual : bool)
  : body St Z Z :=
  let exposureMode := if isManual then MANUAL else AUTOMATIC in
  TRY (sdk_call (EvSetExposureMode (toCameraDevice camera) exposureMode)
         (setExposureMode sdk (toCameraDevice camera) exposureMode)) ;;
  ret OK.

Definition camera_set_exposure_mode (camera : ptr) (isManual : bool)
  : World St -> Z * World St :=
  call (camera_set_exposure_mode_body camera isManual).

Definition camera_get_exposure_limits_body (camera low high : ptr)
  : body St Z Z :=
  let exposureLimits := mkPair 0 0 in
  let* r := sdk_call (EvGetExposureLimits (toCameraDevice camera))
              (getExposureLimits sdk (toCameraDevice camera) exposureLimits) in
  let exposureLimits := snd r in
  TRY (ret (fst r)) ;;
  store low (VU32 (first exposureLimits)) ;;
  store high (VU32 (second exposureLimits)) ;;
  ret OK.

Definition camera_get_exposure_limits (camera low high : ptr)
  : World St -> Z * World St :=
  call (camera_get_exposure_limits_body camera low high).

(** *** [camera_delete] *)

(** [delete toCameraDevice(camera)]: the device's destructor is SDK code;
    releasing the null pointer does nothing. *)
Definition delete_device {R} (dev : ptr) : body St R unit :=
  if non_null dev then
    sdk_call (EvDestroyCameraDevice dev)
      (fun s => (tt, destroyCameraDevice sdk dev s))
  else ret tt.

Definition camera_delete_body (camera listener : ptr) : body St unit unit :=
  (if non_null listener then
     sdk_call (EvUnregisterDataListener (toCameraDevice camera))
       (unregisterDataListener sdk (toCameraDevice camera)) ;;
     delete ScalarForm listener
   else ret tt) ;;
  delete_device (toCameraDevice camera).

Definition camera_delete (camera listener : ptr) : World St -> World St :=
  call_void (camera_delete_body camera listener).

(** *** Status projection *)

Definition toCameraStatus (camera_status : Z) : CameraStatus :=
  mkStatus camera_status.

Definition is_camera_status_success (camera_status : Z) : bool :=
  status_eqb (toCameraStatus camera_status) (SUCCESS sdk).

(** *** C strings *)

(** [dst[offset] = b] on a [char] block. *)
Definition store_byte {R} (dst : ptr) (offset : nat) (b : byte)
  : body St R unit :=
  fun w =>
    match w_heap w !! dst with
    | Some (mkBlock form (ObjChars cells)) =>
        if (offset <? length cells)%nat then
          (Next tt,
           mkWorld (w_sdk w) (w_mem w)
             (<[dst := mkBlock form (ObjChars (<[offset := Some b]> cells))]>
                (w_heap w))
             (w_trace w) (w_faults w))
        else raise (OutOfBoundsWrite dst offset b) w
    | _ => raise (DeadObject dst) w
    end.

(** [strcpy(dst, src)]: copy byte after byte, the first null byte of the
    source included, and stop there.  [offset] is how far the copy is. *)
Fixpoint strcpy_from {R} (dst : ptr) (offset : nat) (src : list byte)
  : body St R unit :=
  match src with
  | [] => ret tt
  | b :: rest =>
      store_byte dst offset b ;;
      if Byte.eqb b x00 then ret tt
      else strcpy_from dst (S offset) rest
  end.

Definition strcpy {R} (dst : ptr) (src : list byte) : body St R unit :=
  strcpy_from dst 0 src.

(** [new char[n]] *)
Definition new_char_array {R} (n : nat) : body St R ptr :=
  new ArrayForm (ObjChars (replicate n None)).

Definition camera_status_to_string_body (camera_status : Z)
  : body St ptr ptr :=
  let string := getStatusString sdk (toCameraStatus camera_status) in
  let* output := new_char_array (size string) in
  strcpy output (data string) ;;
  ret output.

Definition camera_status_to_string (camera_status : Z)
  : World St -> ptr * World St :=
  call (camera_status_to_string_body camera_status).

Definition delete_string_body (string : ptr) : body St unit unit :=
  delete ScalarForm string.

Definition delete_string (string : ptr) : World St -> World St :=
  call_void (delete_string_body string).

(** *** String vector *)

Definition new_string_vector : World St -> ptr * World St :=
  call (let* vector := new ScalarForm (ObjStringVector []) in
        ret (reinterpret_cast vector)).

(** The vector's [operator[]] at [index]: outside the vector the read is
    undefined. *)
Definition vector_at {R} (vector : ptr) (index : Z)
  : body St R (option String) :=
  fun w =>
    match w_heap w !! vector with
    | Some (mkBlock _ (ObjStringVector elems)) =>
        match (if 0 <=? index then elems !! Z.to_nat index else None) with
        | Some string => (Next (Some string), w)
        | None => (raise (OutOfBoundsRead vector index) ;; ret None) w
        end
    | _ => (raise (DeadObject vector) ;; ret None) w
    end.

Definition string_vector_length (vector : ptr) : World St -> Z * World St :=
  call (fun w =>
          match w_heap w !! vector with
          | Some (mkBlock _ (ObjStringVector elems)) =>
              (Next (Z.of_nat (length elems)), w)
          | _ => (raise (DeadObject vector) ;; ret 0) w
          end).

Definition string_vector_get_body (vector : ptr) (index : Z)
  : body St ptr ptr :=
  let* read := vector_at (reinterpret_cast vector) index in
  match read with
  | Some string =>
      let* output := new_char_array (size string) in
      strcpy output (data string) ;;
      ret output
  | None => ret nullptr
  end.

Definition string_vector_get (vector : ptr) (index : Z)
  : World St -> ptr * World St :=
  call (string_vector_get_body vector index).

Definition delete_string_vector (vector : ptr) : World St -> World St :=
  call_void (delete ScalarForm (reinterpret_cast vector)).

(** *** Frame delivery *)

(** The SDK hands the frames [frames], in order, to the listener at
    [this]. *)
Fixpoint deliver (this : ptr) (frames : list ptr) : body St unit unit :=
  match frames with
  | [] => ret tt
  | data :: rest => onNewData this data ;; deliver this rest
  end.

(** *** Reading a C string back, as the caller does *)

(** The block at [p] holds every byte of [s] and the terminator. *)
Definition holds_c_string (w : World St) (p : ptr) (s : String) : bool :=
  match w_heap w !! p with
  | Some (mkBlock _ (ObjChars cells)) =>
      bool_decide (take (length (data s)) cells = Some <$> data s)
  | _ => false
  end.

(** The capacity of the [char] block at [p]. *)
Definition capacity (w : World St) (p : ptr) : option nat :=
  match w_heap w !! p with
  | Some (mkBlock _ (ObjChars cells)) => Some (length cells)
  | _ => None
  end.

(** *** Auxiliary notions used to state the properties *)

(** The boolean-to-mode mapping of [camera_set_exposure_mode]. *)
Definition mode_of_bool (isManual : bool) : ExposureMode :=
  if isManual then MANUAL else AUTOMATIC.

(** The SDK remembers the exposure mode: after a successful
    [setExposureMode m], a successful [getExposureMode] reports [m]. *)
Definition sdk_keeps_exposure_mode : Prop :=
  forall (dev : ptr) (m before m' : ExposureMode) (s s1 s2 : St)
         (status : CameraStatus),
    setExposureMode sdk dev m s = (SUCCESS sdk, s1) ->
    getExposureMode sdk dev before s1 = (status, m', s2) ->
    status = SUCCESS sdk ->
    m' = m.

(** The statements [camera_status_to_string] and [string_vector_get] have
    in common once the SDK string is at hand. *)
Definition copy_to_new_char_array (string : String) : body St ptr ptr :=
  let* output := new_char_array (size string) in
  strcpy output (data string) ;;
  ret output.

Definition no_null_byte (s : String) : Prop := Forall (fun b => b ≠ x00) s.

End Adapter.

(** * A bench double of the SDK

    A small simulated camera rig, used to run the adapter on concrete
    worlds.  The rig's state says which cameras are connected, what device
    creation hands out and how each fallible call answers; it remembers the
    exposure mode and the registered listener. *)

Module Bench.

Record rig := mkRig {
  cameras : list String;
  device : ptr;
  init_status : CameraStatus;
  register_status : CameraStatus;
  limits_status : CameraStatus;
  exposure_limits : Pair;
  exposure_mode : ExposureMode;
  registered : option ptr;
  use_cases : list String
}.

Definition success : CameraStatus := mkStatus 0.
Definition runtime_error : CameraStatus := mkStatus 1024.
Definition device_is_busy : CameraStatus := mkStatus 1030.

Definition with_mode (m : ExposureMode) (s : rig) : rig :=
  mkRig (cameras s) (device s) (init_status s) (register_status s)
    (limits_status s) (exposure_limits s) m (registered s) (use_cases s).

Definition with_registered (l : option ptr) (s : rig) : rig :=
  mkRig (cameras s) (device s) (init_status s) (register_status s)
    (limits_status s) (exposure_limits s) (exposure_mode s) l (use_cases s).

Definition status_string (st : CameraStatus) : String :=
  if status_eqb st success then ["S"; "U"; "C"; "C"; "E"; "S"; "S"]%byte
  else if status_eqb st runtime_error
  then ["R"; "U"; "N"; "T"; "I"; "M"; "E"; "_"; "E"; "R"; "R"; "O"; "R"]%byte
  else if status_eqb st device_is_busy
  then ["D"; "E"; "V"; "I"; "C"; "E"; "_"; "I"; "S"; "_"; "B"; "U"; "S"; "Y"]%byte
  else [].

Definition sdk : Royale rig := {|
  SUCCESS := success;
  getStatusString := status_string;
  getConnectedCameraList := fun s => (cameras s, s);
  createCamera := fun _ s => (device s, s);
  initialize := fun _ s => (init_status s, s);
  registerDataListener := fun _ l s =>
    (register_status s,
     if status_eqb (register_status s) success
     then with_registered (Some l) s else s);
  unregisterDataListener := fun _ s => (success, with_registered None s);
  destroyCameraDevice := fun _ s => s;
  getUseCases := fun _ _ s => (success, use_cases s, s);
  getExposureMode := fun _ _ s => (success, exposure_mode s, s);
  setExposureMode := fun _ m s => (success, with_mode m s);
  getExposureLimits := fun _ p s =>
    (limits_status s,
     if status_eqb (limits_status s) success then exposure_limits s
     else mkPair (first (exposure_limits s)) (second p),
     s)
|}.

Definition camera_id : String := ["0"; "0"; "0"; "5"]%byte.

Definition mode_9_5fps : String :=
  ["M"; "O"; "D"; "E"; "_"; "9"; "_"; "5"; "F"; "P"; "S"]%byte.

(** One camera, everything succeeds. *)
Definition healthy : rig :=
  mkRig [camera_id] 64%N success success success (mkPair 50 2000)
    AUTOMATIC None [mode_9_5fps].

Definition unplugged : rig :=
  mkRig [] 64%N success success success (mkPair 50 2000) AUTOMATIC None [].

Definition no_device : rig :=
  mkRig [camera_id] nullptr success success success (mkPair 50 2000)
    AUTOMATIC None [].

Definition init_fails : rig :=
  mkRig [camera_id] 64%N runtime_error success success (mkPair 50 2000)
    AUTOMATIC None [].

Definition register_fails : rig :=
  mkRig [camera_id] 64%N success device_is_busy success (mkPair 50 2000)
    AUTOMATIC None [].

Definition limits_fail : rig :=
  mkRig [camera_id] 64%N success success device_is_busy (mkPair 50 2000)
    AUTOMATIC None [].

(** The caller's cells: the [camera] out-parameter at 100 and the
    [listener] out-parameter at 104, each holding a sentinel; cells for
    [low], [high] and [isManual] at 200, 204 and 208. *)
Definition camera_cell : ptr := 100%N.
Definition listener_cell : ptr := 104%N.
Definition low_cell : ptr := 200%N.
Definition high_cell : ptr := 204%N.
Definition is_manual_cell : ptr := 208%N.

Definition caller_mem : gmap ptr val :=
  <[camera_cell := VPtr 11%N]>
    (<[listener_cell := VPtr 22%N]>
       (<[low_cell := VU32 7]> (<[high_cell := VU32 8]> ∅))).

Definition world (s : rig) : World rig := mkWorld s caller_mem ∅ [] [].

Definition on_frame : ptr := 4096%N.
Definition context : ptr := 8192%N.

Definition attach (s : rig) : Z * World rig :=
  camera_attach sdk on_frame context camera_cell listener_cell (world s).

End Bench.

(** * Compositions

    The adapter's functions chained the way the header means them to be
    used: out-cells are read back after a call, handles go from
    [camera_attach] to [camera_delete], a vector goes from
    [new_string_vector] through [camera_get_use_cases] to
    [delete_string_vector]. *)

Section Compositions.

Context {St : Type} (sdk : Royale St).

(** The pointer a caller finds behind a pointer out-parameter. *)
Definition read_ptr (w : World St) (cell : ptr) : ptr :=
  match w_mem w !! cell with
  | Some (VPtr p) => p
  | _ => nullptr
  end.

(** Both out-cells are set to null, [camera_attach] runs, and whatever the
    cells then hold is handed to [camera_delete]. *)
Definition attach_then_delete (callback payload camera listener : ptr)
  (w : World St) : World St :=
  let w0 :=
    call_void (store camera (VPtr nullptr) ;; store listener (VPtr nullptr))
      w in
  let w1 := snd (camera_attach sdk callback payload camera listener w0) in
  camera_delete sdk (read_ptr w1 camera) (read_ptr w1 listener) w1.

(** A vector is made, filled by [camera_get_use_cases], and deleted. *)
Definition use_cases_then_delete (camera : ptr) (w : World St) : World St :=
  let w1 := new_string_vector w in
  let w2 := camera_get_use_cases sdk camera (fst w1) (snd w1) in
  delete_string_vector (fst w1) (snd w2).

End Compositions.

(** * A second bench double: an SDK whose queries fail

    [getUseCases] appends one name and then reports a busy device;
    [getExposureMode] overwrites the reference and reports an error.  The
    rest behaves as [Bench.sdk]. *)

Module BenchFailing.

Definition half_name : String := ["M"; "O"; "D"; "E"]%byte.

Definition sdk : Royale Bench.rig := {|
  SUCCESS := SUCCESS Bench.sdk;
  getStatusString := getStatusString Bench.sdk;
  getConnectedCameraList := getConnectedCameraList Bench.sdk;
  createCamera := createCamera Bench.sdk;
  initialize := initialize Bench.sdk;
  registerDataListener := registerDataListener Bench.sdk;
  unregisterDataListener := unregisterDataListener Bench.sdk;
  destroyCameraDevice := destroyCameraDevice Bench.sdk;
  getUseCases := fun _ v s => (Bench.device_is_busy, v ++ [half_name], s);
  getExposureMode := fun _ _ s => (Bench.runtime_error, MANUAL, s);
  setExposureMode := setExposureMode Bench.sdk;
  getExposureLimits := getExposureLimits Bench.sdk
|}.

End BenchFailing.

(** * Bench worlds for the further properties *)

Module BenchWorlds.

(** The world after a successful attach on the healthy rig. *)
Definition attached : World Bench.rig := snd (Bench.attach Bench.healthy).

(** A name with a null byte in the middle. *)
Definition split_name : String := ["A"; "B"; "000"; "C"; "D"]%byte.

(** A world in which the caller already owns a vector at address 5. *)
Definition vector_at_5 : ptr := 5%N.

Definition world_with_vector (names : list String) : World Bench.rig :=
  mkWorld Bench.healthy Bench.caller_mem
    (<[vector_at_5 := mkBlock ScalarForm (ObjStringVector names)]> ∅) [] [].

End BenchWorlds.

(** * Properties *)

Section Properties.

Context {St : Type} (sdk : Royale St).

(** ** Basic facts *)

Lemma non_null_true (p : ptr) : non_null p = true <-> p ≠ nullptr.
Proof.
  unfold non_null. rewrite negb_true_iff, N.eqb_neq. reflexivity.
Qed.

Lemma non_null_false (p : ptr) : non_null p = false <-> p = nullptr.
Proof.
  unfold non_null. rewrite negb_false_iff, N.eqb_eq. reflexivity.
Qed.

Lemma status_eqb_eq (a b : CameraStatus) : status_eqb a b = true <-> a = b.
Proof.
  destruct a as [x], b as [y]. unfold status_eqb. simpl.
  rewrite Z.eqb_eq. split; [intros -> | intros [= ->]]; reflexivity.
Qed.

Lemma status_eqb_neq (a b : CameraStatus) : status_eqb a b = false <-> a ≠ b.
Proof.
  rewrite <- status_eqb_eq. destruct (status_eqb a b); split; congruence.
Qed.

Lemma status_eqb_refl (a : CameraStatus) : status_eqb a a = true.
Proof. apply status_eqb_eq. reflexivity. Qed.

Lemma fresh_ptr_non_null (h : gmap ptr block) : fresh_ptr h ≠ nullptr.
Proof.
  unfold fresh_ptr. intros E.
  apply (is_fresh ({[nullptr]} ∪ dom h)). rewrite E. set_solver.
Qed.

Lemma fresh_ptr_unused (h : gmap ptr block) : h !! fresh_ptr h = None.
Proof.
  apply not_elem_of_dom. unfold fresh_ptr. intros E.
  apply (is_fresh ({[nullptr]} ∪ dom h)). set_solver.
Qed.

(** Unfolding of the plumbing shared by every function body. *)
Ltac step :=
  cbv beta iota zeta delta
    [call_void call bind TRY sdk_call store load_ptr new emit raise ret
     return_ OK reinterpret_cast toCameraDevice];
  simpl.

(** ** Status projection *)

(** C3.  [is_camera_status_success code] is true exactly when [code] is the
    integer value of the SDK's SUCCESS status. *)
Theorem is_camera_status_success_iff (code : Z) :
  is_camera_status_success sdk code = true
  <-> code = static_cast_int (SUCCESS sdk).
Proof.
  unfold is_camera_status_success, toCameraStatus, status_eqb,
    static_cast_int. simpl.
  apply Z.eqb_eq.
Qed.

(** ** Attachment *)

(** C1.  When the SDK reports no connected camera, [camera_attach] returns
    SUCCESS and the store is as the caller left it: in particular the cells
    behind [camera] and [listener] hold what they held before the call,
    and nothing was allocated. *)
Theorem camera_attach_no_camera
  (callback payload camera listener : ptr) (w : World St) :
  length (fst (getConnectedCameraList sdk (w_sdk w))) = 0%nat ->
  let r := camera_attach sdk callback payload camera listener w in
  fst r = static_cast_int (SUCCESS sdk)
  /\ w_mem (snd r) !! camera = w_mem w !! camera
  /\ w_mem (snd r) !! listener = w_mem w !! listener
  /\ w_mem (snd r) = w_mem w
  /\ w_heap (snd r) = w_heap w.
Proof.
  intros Hnone. unfold camera_attach, camera_attach_body. step.
  destruct (getConnectedCameraList sdk (w_sdk w)) as [ids s1] eqn:E.
  simpl in *. destruct ids as [| id0 rest]; [| discriminate].
  simpl. repeat split; reflexivity.
Qed.

(** C8.  When a camera is connected but device creation yields the null
    handle, [camera_attach] returns SUCCESS; the one store it performs
    writes null into [*camera]; no listener is constructed, and a
    [listener] cell distinct from the [camera] cell keeps its contents. *)
Theorem camera_attach_null_device
  (callback payload camera listener : ptr) (w : World St)
  (id0 : String) (rest : list String) (s1 s2 : St) :
  getConnectedCameraList sdk (w_sdk w) = (id0 :: rest, s1) ->
  createCamera sdk id0 s1 = (nullptr, s2) ->
  let r := camera_attach sdk callback payload camera listener w in
  fst r = static_cast_int (SUCCESS sdk)
  /\ w_mem (snd r) = <[camera := VPtr nullptr]> (w_mem w)
  /\ w_mem (snd r) !! camera = Some (VPtr nullptr)
  /\ (listener ≠ camera -> w_mem (snd r) !! listener = w_mem w !! listener)
  /\ w_heap (snd r) = w_heap w
  /\ w_trace (snd r) =
       w_trace w ++ [EvGetConnectedCameraList; EvCreateCamera id0].
Proof.
  intros Hlist Hcreate. unfold camera_attach, camera_attach_body. step.
  rewrite Hlist. simpl. rewrite Hcreate. simpl.
  repeat split.
  - apply lookup_insert_eq.
  - intros Hne. apply lookup_insert_ne. congruence.
  - rewrite <- app_assoc. reflexivity.
Qed.

(** C10.  When a non-null device was created and a later step fails,
    [camera_attach] returns the failing status with out-parameters already
    written.  If initialisation fails, the device handle is in [*camera],
    nothing else was stored and no listener exists.  If registration fails,
    the device handle was stored through [camera], a listener built from
    the caller's callback and payload is on the heap, and its address was
    stored through [listener]. *)
Theorem camera_attach_failure_after_creation
  (callback payload camera listener : ptr) (w : World St)
  (id0 : String) (rest : list String) (s1 s2 : St) (cameraDevice : ptr) :
  getConnectedCameraList sdk (w_sdk w) = (id0 :: rest, s1) ->
  createCamera sdk id0 s1 = (cameraDevice, s2) ->
  cameraDevice ≠ nullptr ->
  let r := camera_attach sdk callback payload camera listener w in
  let l := fresh_ptr (w_heap w) in
  (forall (status : CameraStatus) (s3 : St),
      initialize sdk cameraDevice s2 = (status, s3) ->
      status ≠ SUCCESS sdk ->
      fst r = static_cast_int status
      /\ fst r ≠ static_cast_int (SUCCESS sdk)
      /\ w_mem (snd r) = <[camera := VPtr cameraDevice]> (w_mem w)
      /\ w_mem (snd r) !! camera = Some (VPtr cameraDevice)
      /\ (listener ≠ camera ->
          w_mem (snd r) !! listener = w_mem w !! listener)
      /\ w_heap (snd r) = w_heap w)
  /\
  (forall (status : CameraStatus) (s3 s4 : St),
      initialize sdk cameraDevice s2 = (SUCCESS sdk, s3) ->
      registerDataListener sdk cameraDevice l s3 = (status, s4) ->
      status ≠ SUCCESS sdk ->
      fst r = static_cast_int status
      /\ fst r ≠ static_cast_int (SUCCESS sdk)
      /\ w_mem (snd r) =
           <[listener := VPtr l]> (<[camera := VPtr cameraDevice]> (w_mem w))
      /\ w_mem (snd r) !! listener = Some (VPtr l)
      /\ (listener ≠ camera ->
          w_mem (snd r) !! camera = Some (VPtr cameraDevice))
      /\ l ≠ nullptr
      /\ w_heap (snd r) =
           <[l := mkBlock ScalarForm (DataListener callback payload)]>
             (w_heap w)).
Proof.
  intros Hlist Hcreate Hdev r l.
  assert (Hnn : non_null cameraDevice = true) by (apply non_null_true; exact Hdev).
  assert (Hcode : forall status : CameraStatus,
             status ≠ SUCCESS sdk ->
             static_cast_int status ≠ static_cast_int (SUCCESS sdk)).
  { intros [x] Hne Heq. apply Hne. destruct (SUCCESS sdk) as [y].
    unfold static_cast_int in Heq. simpl in Heq. congruence. }
  split.
  - intros status s3 Hinit Hfail.
    subst r. unfold camera_attach, camera_attach_body. step.
    rewrite Hlist. simpl. rewrite Hcreate. simpl. rewrite Hnn. simpl.
    rewrite Hinit. simpl.
    apply status_eqb_neq in Hfail as Hb. rewrite Hb. simpl.
    repeat split.
    + apply Hcode, Hfail.
    + apply lookup_insert_eq.
    + intros Hne. apply lookup_insert_ne. congruence.
  - intros status s3 s4 Hinit Hreg Hfail.
    subst r. unfold camera_attach, camera_attach_body. step.
    rewrite Hlist. simpl. rewrite Hcreate. simpl. rewrite Hnn. simpl.
    rewrite Hinit. simpl. rewrite status_eqb_refl. simpl.
    rewrite lookup_insert_eq. fold l. rewrite Hreg. simpl.
    apply status_eqb_neq in Hfail as Hb. rewrite Hb. simpl.
    repeat split.
    + apply Hcode, Hfail.
    + apply lookup_insert_eq.
    + intros Hne. rewrite lookup_insert_ne by congruence.
      apply lookup_insert_eq.
    + apply fresh_ptr_non_null.
Qed.


(** On success both handles are the caller's: the device handle is behind
    [camera], and behind [listener] is the address of a listener holding
    the callback and payload given to [camera_attach], the same address the
    SDK received at registration. *)
Lemma camera_attach_success
  (callback payload camera listener : ptr) (w : World St)
  (id0 : String) (rest : list String) (s1 s2 s3 s4 : St)
  (cameraDevice : ptr) :
  getConnectedCameraList sdk (w_sdk w) = (id0 :: rest, s1) ->
  createCamera sdk id0 s1 = (cameraDevice, s2) ->
  cameraDevice ≠ nullptr ->
  initialize sdk cameraDevice s2 = (SUCCESS sdk, s3) ->
  registerDataListener sdk cameraDevice (fresh_ptr (w_heap w)) s3
    = (SUCCESS sdk, s4) ->
  camera_attach sdk callback payload camera listener w =
    (static_cast_int (SUCCESS sdk),
     mkWorld s4
       (<[listener := VPtr (fresh_ptr (w_heap w))]>
          (<[camera := VPtr cameraDevice]> (w_mem w)))
       (<[fresh_ptr (w_heap w) :=
            mkBlock ScalarForm (DataListener callback payload)]> (w_heap w))
       (w_trace w ++
          [EvGetConnectedCameraList; EvCreateCamera id0;
           EvInitialize cameraDevice; EvNew ScalarForm (fresh_ptr (w_heap w));
           EvRegisterDataListener cameraDevice (fresh_ptr (w_heap w))])
       (w_faults w)).
Proof.
  intros Hlist Hcreate Hdev Hinit Hreg.
  apply non_null_true in Hdev.
  unfold camera_attach, camera_attach_body. step.
  rewrite Hlist. simpl. rewrite Hcreate. simpl. rewrite Hdev. simpl.
  rewrite Hinit. simpl. rewrite status_eqb_refl. simpl.
  rewrite lookup_insert_eq. rewrite Hreg. simpl.
  rewrite status_eqb_refl. simpl.
  repeat rewrite <- app_assoc. reflexivity.
Qed.

(** ** Exposure limits *)

(** C4.  [camera_get_exposure_limits] hands the SDK a local pair.  If the
    SDK answers with a status other than SUCCESS, that status is returned
    at once and the store is unchanged, whatever the SDK left in the pair.
    If the SDK answers SUCCESS, the pair is stored through [low] and
    [high], in that order. *)
Theorem camera_get_exposure_limits_writes_on_success_only
  (camera low high : ptr) (w : World St)
  (status : CameraStatus) (limits : Pair) (s' : St) :
  getExposureLimits sdk (toCameraDevice camera) (mkPair 0 0) (w_sdk w)
    = (status, limits, s') ->
  let r := camera_get_exposure_limits sdk camera low high w in
  fst r = static_cast_int status
  /\ (status ≠ SUCCESS sdk ->
      w_mem (snd r) = w_mem w
      /\ w_mem (snd r) !! low = w_mem w !! low
      /\ w_mem (snd r) !! high = w_mem w !! high)
  /\ (status = SUCCESS sdk ->
      w_mem (snd r) =
        <[high := VU32 (second limits)]>
          (<[low := VU32 (first limits)]> (w_mem w)))
  /\ (w_mem (snd r) ≠ w_mem w -> status = SUCCESS sdk).
Proof.
  intros Hsdk. unfold camera_get_exposure_limits,
    camera_get_exposure_limits_body. step.
  unfold toCameraDevice, reinterpret_cast in Hsdk. rewrite Hsdk. simpl.
  destruct (status_eqb status (SUCCESS sdk)) eqn:Hs; simpl.
  - apply status_eqb_eq in Hs. subst status.
    split; [reflexivity |]. split; [intros Hne; congruence |].
    split; [reflexivity | intros _; reflexivity].
  - apply status_eqb_neq in Hs.
    split; [reflexivity |]. split; [intros _; repeat split |].
    split; [intros He; congruence | intros Hne; congruence].
Qed.

(** ** Exposure mode *)



Lemma ExposureMode_eqb_MANUAL (m : ExposureMode) :
  ExposureMode_eqb m MANUAL = true <-> m = MANUAL.
Proof. destruct m; simpl; split; congruence. Qed.

Lemma camera_set_exposure_mode_run (camera : ptr) (b : bool) (w : World St) :
  camera_set_exposure_mode sdk camera b w =
    (static_cast_int (fst (setExposureMode sdk camera (mode_of_bool b) (w_sdk w))),
     mkWorld (snd (setExposureMode sdk camera (mode_of_bool b) (w_sdk w)))
       (w_mem w) (w_heap w)
       (w_trace w ++ [EvSetExposureMode camera (mode_of_bool b)])
       (w_faults w)).
Proof.
  unfold camera_set_exposure_mode, camera_set_exposure_mode_body. step.
  fold (mode_of_bool b).
  destruct (setExposureMode sdk camera (mode_of_bool b) (w_sdk w))
    as [status s1]. simpl.
  destruct (status_eqb status (SUCCESS sdk)) eqn:Hs; simpl.
  - apply status_eqb_eq in Hs. subst. reflexivity.
  - reflexivity.
Qed.

Lemma camera_get_exposure_mode_run
  (indeterminate : ExposureMode) (camera isManual : ptr) (w : World St) :
  let r := getExposureMode sdk camera indeterminate (w_sdk w) in
  camera_get_exposure_mode sdk indeterminate camera isManual w =
    (static_cast_int (fst (fst r)),
     mkWorld (snd r)
       (if status_eqb (fst (fst r)) (SUCCESS sdk)
        then <[isManual := VBool (ExposureMode_eqb (snd (fst r)) MANUAL)]>
               (w_mem w)
        else w_mem w)
       (w_heap w) (w_trace w ++ [EvGetExposureMode camera]) (w_faults w)).
Proof.
  unfold camera_get_exposure_mode, camera_get_exposure_mode_body. step.
  destruct (getExposureMode sdk camera indeterminate (w_sdk w))
    as [[status m] s1]. simpl.
  destruct (status_eqb status (SUCCESS sdk)) eqn:Hs; simpl.
  - apply status_eqb_eq in Hs. subst. reflexivity.
  - reflexivity.
Qed.

(** C9.  [camera_set_exposure_mode b] calls the SDK once, with MANUAL when
    [b] is true and AUTOMATIC when it is false.  When the SDK's
    [getExposureMode] succeeds, [camera_get_exposure_mode] stores through
    [isManual] the boolean that is true exactly when the reported mode is
    MANUAL.  Hence, over an SDK that remembers the mode, setting [b] and
    then getting, both successfully, leaves [b] behind [isManual]. *)
Theorem exposure_mode_mapping_and_round_trip :
  (forall (camera : ptr) (b : bool) (w : World St),
      let r := camera_set_exposure_mode sdk camera b w in
      w_trace (snd r) =
        w_trace w ++
          [EvSetExposureMode camera (if b then MANUAL else AUTOMATIC)]
      /\ w_sdk (snd r) =
           snd (setExposureMode sdk camera (if b then MANUAL else AUTOMATIC)
                  (w_sdk w))
      /\ fst r =
           static_cast_int
             (fst (setExposureMode sdk camera
                     (if b then MANUAL else AUTOMATIC) (w_sdk w))))
  /\
  (forall (indeterminate : ExposureMode) (camera isManual : ptr)
          (w : World St) (mode : ExposureMode) (s1 : St),
      getExposureMode sdk camera indeterminate (w_sdk w)
        = (SUCCESS sdk, mode, s1) ->
      let r := camera_get_exposure_mode sdk indeterminate camera isManual w in
      fst r = static_cast_int (SUCCESS sdk)
      /\ exists out : bool,
           w_mem (snd r) !! isManual = Some (VBool out)
           /\ (out = true <-> mode = MANUAL))
  /\
  (sdk_keeps_exposure_mode sdk ->
   forall (indeterminate : ExposureMode) (camera isManual : ptr)
          (b : bool) (w : World St),
      let r1 := camera_set_exposure_mode sdk camera b w in
      let r2 :=
        camera_get_exposure_mode sdk indeterminate camera isManual (snd r1) in
      is_camera_status_success sdk (fst r1) = true ->
      is_camera_status_success sdk (fst r2) = true ->
      w_mem (snd r2) !! isManual = Some (VBool b)).
Proof.
  split; [| split].
  - intros camera b w r. subst r.
    rewrite camera_set_exposure_mode_run. simpl.
    unfold mode_of_bool. repeat split; reflexivity.
  - intros indeterminate camera isManual w mode s1 Hget r. subst r.
    rewrite camera_get_exposure_mode_run. simpl.
    rewrite Hget. simpl. rewrite status_eqb_refl.
    split; [reflexivity |].
    exists (ExposureMode_eqb mode MANUAL).
    split; [apply lookup_insert_eq | apply ExposureMode_eqb_MANUAL].
  - intros Hkeeps indeterminate camera isManual b w r1 r2 Hok1 Hok2.
    subst r2 r1. revert Hok1 Hok2.
    rewrite camera_set_exposure_mode_run. simpl.
    rewrite camera_get_exposure_mode_run. simpl.
    destruct (setExposureMode sdk camera (mode_of_bool b) (w_sdk w))
      as [st1 s1] eqn:Hset. simpl.
    destruct (getExposureMode sdk camera indeterminate s1)
      as [[st2 m] s2] eqn:Hget. simpl.
    unfold is_camera_status_success, toCameraStatus, static_cast_int.
    destruct st1 as [c1], st2 as [c2]. simpl.
    intros Hok1 Hok2.
    apply status_eqb_eq in Hok1, Hok2. rewrite Hok1 in Hset.
    rewrite Hok2 in Hget. rewrite Hok2, status_eqb_refl.
    rewrite lookup_insert_eq.
    assert (Hm : m = mode_of_bool b)
      by (eapply Hkeeps; [exact Hset | exact Hget | reflexivity]).
    subst m. destruct b; reflexivity.
Qed.

(** ** Frame delivery *)

Lemma onNewData_run
  (this : ptr) (form : alloc_form) (callback payload data : ptr)
  (w : World St) :
  w_heap w !! this = Some (mkBlock form (DataListener callback payload)) ->
  onNewData this data w =
    (Next tt,
     mkWorld (w_sdk w) (w_mem w) (w_heap w)
       (w_trace w ++ [EvCallback callback data payload]) (w_faults w)).
Proof.
  intros Hobj. unfold onNewData. rewrite Hobj. reflexivity.
Qed.

Lemma deliver_run
  (this : ptr) (form : alloc_form) (callback payload : ptr)
  (frames : list ptr) :
  forall w : World St,
    w_heap w !! this = Some (mkBlock form (DataListener callback payload)) ->
    deliver this frames w =
      (Next tt,
       mkWorld (w_sdk w) (w_mem w) (w_heap w)
         (w_trace w ++
            map (fun data => EvCallback callback data payload) frames)
         (w_faults w)).
Proof.
  induction frames as [| data rest IH]; intros w Hobj; simpl.
  - unfold ret. rewrite app_nil_r. destruct w; reflexivity.
  - unfold bind. rewrite (onNewData_run _ _ _ _ _ _ Hobj).
    rewrite IH by exact Hobj. simpl.
    rewrite <- app_assoc. reflexivity.
Qed.

(** C5.  A listener constructed with [callback] and [payload] answers each
    frame the SDK delivers with exactly one invocation of [callback]; its
    first argument is the address of the SDK's frame and its second is the
    stored [payload].  Over a sequence of frames the invocations are the
    frames' in order, one each, and nothing else in the world changes. *)
Theorem onNewData_forwards_frame_and_payload
  (this : ptr) (form : alloc_form) (callback payload : ptr) (w : World St) :
  w_heap w !! this = Some (mkBlock form (DataListener callback payload)) ->
  (forall data : ptr,
      call_void (onNewData this data) w =
        mkWorld (w_sdk w) (w_mem w) (w_heap w)
          (w_trace w ++ [EvCallback callback data payload]) (w_faults w))
  /\
  (forall frames : list ptr,
      call_void (deliver this frames) w =
        mkWorld (w_sdk w) (w_mem w) (w_heap w)
          (w_trace w ++
             map (fun data => EvCallback callback data payload) frames)
          (w_faults w)).
Proof.
  intros Hobj. split.
  - intros data. unfold call_void, call.
    rewrite (onNewData_run _ _ _ _ _ _ Hobj). reflexivity.
  - intros frames. unfold call_void, call.
    rewrite (deliver_run _ _ _ _ _ _ Hobj). reflexivity.
Qed.

(** ** Deletion *)

(** C6.  What [camera_delete] does, and in which order.  With a non-null
    [listener] (and the camera handle it belongs to): the listener is
    deregistered at the camera, then the listener is released with
    [delete], then the camera is released.  The SDK state is the one after
    deregistration and then destruction of the device; the heap is the old
    one without the listener's block; the trace has the three steps in
    that order; the store is untouched; and for a listener that came from
    [new] no fault is recorded.  With a null [listener]: the camera alone
    is released, no deregistration takes place and no block leaves the
    heap (and releasing a null camera is the no-op of [delete]). *)
Theorem camera_delete_order (camera listener : ptr) (w : World St) :
  (listener ≠ nullptr ->
   camera ≠ nullptr ->
   let w' := camera_delete sdk camera listener w in
   w_sdk w' =
     destroyCameraDevice sdk camera
       (snd (unregisterDataListener sdk camera (w_sdk w)))
   /\ w_heap w' = base.delete listener (w_heap w)
   /\ w_heap w' !! listener = None
   /\ w_trace w' =
        w_trace w
        ++ [EvUnregisterDataListener camera; EvDelete ScalarForm listener;
            EvDestroyCameraDevice camera]
   /\ w_mem w' = w_mem w
   /\ (forall obj : object,
         w_heap w !! listener = Some (mkBlock ScalarForm obj) ->
         w_faults w' = w_faults w))
  /\
  (listener = nullptr ->
   camera_delete sdk camera listener w =
     if non_null camera
     then mkWorld (destroyCameraDevice sdk camera (w_sdk w)) (w_mem w)
            (w_heap w) (w_trace w ++ [EvDestroyCameraDevice camera])
            (w_faults w)
     else w).
Proof.
  split.
  - intros Hl Hc. apply non_null_true in Hl, Hc. cbv zeta.
    unfold camera_delete, camera_delete_body, delete, delete_device. step.
    rewrite Hl. simpl.
    destruct (unregisterDataListener sdk camera (w_sdk w)) as [st s1]. simpl.
    destruct (w_heap w !! listener) as [[form obj0] |] eqn:Hblk; simpl.
    + destruct (alloc_form_eqb form ScalarForm) eqn:Hform; simpl;
        rewrite Hc; simpl;
        (split; [reflexivity |]; split; [reflexivity |];
         split; [apply lookup_delete_eq |];
         split; [repeat rewrite <- app_assoc; reflexivity |];
         split; [reflexivity |]).
      * intros obj _. reflexivity.
      * intros obj Heq. injection Heq as -> _. discriminate.
    + rewrite Hc. simpl.
      split; [reflexivity |]. split; [reflexivity |].
      split; [apply lookup_delete_eq |].
      split; [repeat rewrite <- app_assoc; reflexivity |].
      split; [reflexivity |].
      intros obj Heq. discriminate.
  - intros ->.
    unfold camera_delete, camera_delete_body, delete, delete_device. step.
    destruct (non_null camera); simpl; [reflexivity |].
    destruct w; reflexivity.
Qed.


(** ** C strings handed to the caller *)


Lemma camera_status_to_string_unfold (camera_status : Z) (w : World St) :
  camera_status_to_string sdk camera_status w =
    call (copy_to_new_char_array
            (getStatusString sdk (toCameraStatus camera_status))) w.
Proof. reflexivity. Qed.

Lemma string_vector_get_unfold
  (vector : ptr) (index : Z) (form : alloc_form) (elems : list String)
  (string : String) (w : World St) :
  w_heap w !! vector = Some (mkBlock form (ObjStringVector elems)) ->
  0 <= index ->
  elems !! Z.to_nat index = Some string ->
  string_vector_get vector index w = call (copy_to_new_char_array string) w.
Proof.
  intros Hvec Hidx Hget.
  unfold string_vector_get, string_vector_get_body, call, bind, vector_at,
    reinterpret_cast.
  rewrite Hvec. apply Z.leb_le in Hidx. rewrite Hidx, Hget. reflexivity.
Qed.


Lemma byte_eqb_x00_false (b : byte) : b ≠ x00 -> Byte.eqb b x00 = false.
Proof.
  intros Hne. destruct (Byte.eqb b x00) eqn:E; [| reflexivity].
  apply Byte.byte_dec_bl in E. contradiction.
Qed.

(** Copying a string with no interior null byte into a block that has room
    for its characters only: the characters land in the block, the
    terminator is written one past its end. *)
Lemma strcpy_from_terminator_past_end
  {R : Type} (dst : ptr) (form : alloc_form) (s : String) :
  no_null_byte s ->
  forall (offset : nat) (cells : list (option byte)) (w : World St),
    w_heap w !! dst = Some (mkBlock form (ObjChars cells)) ->
    (offset + length s = length cells)%nat ->
    strcpy_from (R := R) dst offset (s ++ [x00]) w =
      (Next tt,
       mkWorld (w_sdk w) (w_mem w)
         (<[dst := mkBlock form
                     (ObjChars (take offset cells ++ (Some <$> s)))]>
            (w_heap w))
         (w_trace w)
         (w_faults w ++ [OutOfBoundsWrite dst (length cells) x00])).
Proof.
  induction 1 as [| b s' Hb Hs' IH]; intros offset cells w Hblk Hlen.
  - simpl in *. unfold bind, store_byte. rewrite Hblk.
    assert (offset = length cells) as -> by lia.
    rewrite Nat.ltb_irrefl. simpl.
    rewrite app_nil_r, take_ge by lia.
    rewrite (insert_id _ _ _ Hblk). reflexivity.
  - simpl in *. unfold bind at 1. unfold store_byte at 1. rewrite Hblk.
    assert (Hlt : (offset <? length cells)%nat = true)
      by (apply Nat.ltb_lt; lia).
    rewrite Hlt. rewrite (byte_eqb_x00_false _ Hb).
    rewrite (IH (S offset) (<[offset := Some b]> cells)); simpl.
    + rewrite insert_insert_eq, length_insert.
      rewrite (take_S_r _ _ (Some b))
        by (apply list_lookup_insert_eq, Nat.ltb_lt, Hlt).
      rewrite take_insert_ge by lia.
      rewrite <- app_assoc. reflexivity.
    + apply lookup_insert_eq.
    + rewrite length_insert. lia.
Qed.

(** Whatever is copied, the destination stays a [char] block of the same
    form and capacity. *)
Lemma strcpy_from_keeps_block
  {R : Type} (dst : ptr) (form : alloc_form) (src : list byte) :
  forall (offset : nat) (cells : list (option byte)) (w : World St),
    w_heap w !! dst = Some (mkBlock form (ObjChars cells)) ->
    exists (cells' : list (option byte)) (w' : World St),
      strcpy_from (R := R) dst offset src w = (Next tt, w')
      /\ w_heap w' !! dst = Some (mkBlock form (ObjChars cells'))
      /\ length cells' = length cells
      /\ exists extra : list fault, w_faults w' = w_faults w ++ extra.
Proof.
  induction src as [| b rest IH]; intros offset cells w Hblk.
  - exists cells, w. simpl. unfold ret.
    repeat split; [exact Hblk |]. exists []. rewrite app_nil_r. reflexivity.
  - simpl. unfold bind at 1. unfold store_byte at 1. rewrite Hblk.
    destruct (offset <? length cells)%nat eqn:Hlt.
    + set (w1 := mkWorld (w_sdk w) (w_mem w)
                   (<[dst := mkBlock form
                               (ObjChars (<[offset := Some b]> cells))]>
                      (w_heap w))
                   (w_trace w) (w_faults w)).
      destruct (Byte.eqb b x00).
      * exists (<[offset := Some b]> cells), w1. unfold ret.
        repeat split; [apply lookup_insert_eq | apply length_insert |].
        exists []. simpl. rewrite app_nil_r. reflexivity.
      * destruct (IH (S offset) (<[offset := Some b]> cells) w1)
          as (cells' & w' & Hrun & Hblk' & Hlen' & extra & Hf).
        { apply lookup_insert_eq. }
        exists cells', w'. rewrite length_insert in Hlen'.
        repeat split; [exact Hrun | exact Hblk' | exact Hlen' |].
        exists extra. exact Hf.
    + unfold raise.
      set (w1 := mkWorld (w_sdk w) (w_mem w) (w_heap w) (w_trace w)
                   (w_faults w ++ [OutOfBoundsWrite dst offset b])).
      destruct (Byte.eqb b x00).
      * exists cells, w1. unfold ret.
        repeat split; [exact Hblk |].
        exists [OutOfBoundsWrite dst offset b]. reflexivity.
      * destruct (IH (S offset) cells w1)
          as (cells' & w' & Hrun & Hblk' & Hlen' & extra & Hf);
          [exact Hblk |].
        exists cells', w'.
        repeat split; [exact Hrun | exact Hblk' | exact Hlen' |].
        exists (OutOfBoundsWrite dst offset b :: extra).
        rewrite Hf. simpl. rewrite <- app_assoc. reflexivity.
Qed.

Lemma copy_to_new_char_array_overrun (string : String) (w : World St) :
  no_null_byte string ->
  let output := fresh_ptr (w_heap w) in
  call (copy_to_new_char_array string) w =
    (output,
     mkWorld (w_sdk w) (w_mem w)
       (<[output := mkBlock ArrayForm (ObjChars (Some <$> string))]>
          (w_heap w))
       (w_trace w ++ [EvNew ArrayForm output])
       (w_faults w ++ [OutOfBoundsWrite output (size string) x00])).
Proof.
  intros Hs output.
  unfold copy_to_new_char_array, new_char_array, call, strcpy, data.
  unfold bind at 1. unfold new at 1. fold output.
  unfold bind at 1.
  rewrite (strcpy_from_terminator_past_end output ArrayForm string Hs 0
             (replicate (size string) None)); simpl.
  - rewrite insert_insert_eq, length_replicate. reflexivity.
  - apply lookup_insert_eq.
  - rewrite length_replicate. reflexivity.
Qed.

Lemma copy_to_new_char_array_block (string : String) (w : World St) :
  exists (cells : list (option byte)) (w' : World St),
    call (copy_to_new_char_array string) w = (fresh_ptr (w_heap w), w')
    /\ w_heap w' !! fresh_ptr (w_heap w)
         = Some (mkBlock ArrayForm (ObjChars cells))
    /\ length cells = size string.
Proof.
  unfold copy_to_new_char_array, new_char_array, call, strcpy.
  unfold bind at 1. unfold new at 1.
  set (output := fresh_ptr (w_heap w)).
  set (w1 := mkWorld _ _ _ _ _).
  destruct (strcpy_from_keeps_block (R := ptr) output ArrayForm (data string)
              0 (replicate (size string) None) w1)
    as (cells' & w' & Hrun & Hblk' & Hlen' & _).
  { apply lookup_insert_eq. }
  exists cells', w'. unfold bind. rewrite Hrun. simpl.
  split; [reflexivity |].
  split; [exact Hblk' |]. rewrite Hlen', length_replicate. reflexivity.
Qed.

Lemma overrun_summary (string : String) (w : World St) :
  no_null_byte string ->
  let r := call (copy_to_new_char_array string) w in
  capacity (snd r) (fst r) = Some (size string)
  /\ holds_c_string (snd r) (fst r) string = false
  /\ w_faults (snd r) =
       w_faults w ++ [OutOfBoundsWrite (fst r) (size string) x00].
Proof.
  intros Hs. cbv zeta.
  rewrite (copy_to_new_char_array_overrun string w Hs). simpl.
  unfold capacity, holds_c_string. simpl. rewrite lookup_insert_eq.
  split; [| split; [| reflexivity]].
  - rewrite length_fmap. reflexivity.
  - apply bool_decide_eq_false. intros Heq.
    apply (f_equal length) in Heq.
    rewrite length_take, !length_fmap in Heq. unfold data in Heq.
    rewrite length_app in Heq. simpl in Heq. lia.
Qed.

(** C2 (as the code has it).  For an SDK string with no interior null
    byte, the block [camera_status_to_string] and [string_vector_get]
    allocate has room for [size()] bytes: the characters fill it and the
    terminating null byte is written one past its end.  The block does not
    hold the null-terminated string. *)
Theorem c_string_terminator_written_past_allocation :
  (forall (camera_status : Z) (w : World St),
      no_null_byte (getStatusString sdk (toCameraStatus camera_status)) ->
      let string := getStatusString sdk (toCameraStatus camera_status) in
      let r := camera_status_to_string sdk camera_status w in
      capacity (snd r) (fst r) = Some (size string)
      /\ holds_c_string (snd r) (fst r) string = false
      /\ w_faults (snd r) =
           w_faults w ++ [OutOfBoundsWrite (fst r) (size string) x00])
  /\
  (forall (vector : ptr) (index : Z) (form : alloc_form)
          (elems : list String) (string : String) (w : World St),
      w_heap w !! vector = Some (mkBlock form (ObjStringVector elems)) ->
      0 <= index ->
      elems !! Z.to_nat index = Some string ->
      no_null_byte string ->
      let r := string_vector_get vector index w in
      capacity (snd r) (fst r) = Some (size string)
      /\ holds_c_string (snd r) (fst r) string = false
      /\ w_faults (snd r) =
           w_faults w ++ [OutOfBoundsWrite (fst r) (size string) x00]).
Proof.
  split.
  - intros camera_status w Hs string r. subst r.
    rewrite camera_status_to_string_unfold.
    apply overrun_summary, Hs.
  - intros vector index form elems string w Hvec Hidx Hget Hs r. subst r.
    rewrite (string_vector_get_unfold _ _ _ _ _ _ Hvec Hidx Hget).
    apply overrun_summary, Hs.
Qed.

Lemma delete_string_after_copy (string : String) (w : World St) :
  let r := call (copy_to_new_char_array string) w in
  blk_form <$> (w_heap (snd r) !! fst r) = Some ArrayForm
  /\ w_faults (delete_string (fst r) (snd r)) =
       w_faults (snd r) ++ [MismatchedDelete (fst r) ArrayForm ScalarForm]
  /\ w_trace (delete_string (fst r) (snd r)) =
       w_trace (snd r) ++ [EvDelete ScalarForm (fst r)].
Proof.
  destruct (copy_to_new_char_array_block string w)
    as (cells & w' & Hrun & Hblk & _).
  cbv zeta. rewrite Hrun. simpl. rewrite Hblk. simpl.
  split; [reflexivity |].
  unfold delete_string, delete_string_body, call_void, call, delete.
  assert (Hnn : non_null (fresh_ptr (w_heap w)) = true)
    by apply non_null_true, fresh_ptr_non_null.
  rewrite Hnn, Hblk. simpl. split; reflexivity.
Qed.

(** C7 (as the code has it).  The strings come from [new char[n]], the
    array form; [delete_string] releases with [delete], the scalar form.
    For every string either function returns, the release does not match
    the allocation. *)
Theorem delete_string_form_differs_from_allocation :
  (forall (camera_status : Z) (w : World St),
      let r := camera_status_to_string sdk camera_status w in
      blk_form <$> (w_heap (snd r) !! fst r) = Some ArrayForm
      /\ w_faults (delete_string (fst r) (snd r)) =
           w_faults (snd r)
           ++ [MismatchedDelete (fst r) ArrayForm ScalarForm]
      /\ w_trace (delete_string (fst r) (snd r)) =
           w_trace (snd r) ++ [EvDelete ScalarForm (fst r)])
  /\
  (forall (vector : ptr) (index : Z) (form : alloc_form)
          (elems : list String) (string : String) (w : World St),
      w_heap w !! vector = Some (mkBlock form (ObjStringVector elems)) ->
      0 <= index ->
      elems !! Z.to_nat index = Some string ->
      let r := string_vector_get vector index w in
      blk_form <$> (w_heap (snd r) !! fst r) = Some ArrayForm
      /\ w_faults (delete_string (fst r) (snd r)) =
           w_faults (snd r)
           ++ [MismatchedDelete (fst r) ArrayForm ScalarForm]
      /\ w_trace (delete_string (fst r) (snd r)) =
           w_trace (snd r) ++ [EvDelete ScalarForm (fst r)]).
Proof.
  split.
  - intros camera_status w r. subst r.
    rewrite camera_status_to_string_unfold.
    apply delete_string_after_copy.
  - intros vector index form elems string w Hvec Hidx Hget r. subst r.
    rewrite (string_vector_get_unfold _ _ _ _ _ _ Hvec Hidx Hget).
    apply delete_string_after_copy.
Qed.

End Properties.

(** * The adapter on the bench *)

Module BenchRuns.

Import Bench.

Example attach_healthy :
  fst (attach healthy) = 0
  /\ w_mem (snd (attach healthy)) !! camera_cell = Some (VPtr 64%N)
  /\ w_mem (snd (attach healthy)) !! listener_cell = Some (VPtr 1%N)
  /\ w_heap (snd (attach healthy)) !! 1%N
       = Some (mkBlock ScalarForm (ObjDataListener on_frame context))
  /\ registered (w_sdk (snd (attach healthy))) = Some 1%N.
Proof. vm_compute. repeat split; reflexivity. Qed.

Example attach_unplugged :
  fst (attach unplugged) = 0
  /\ w_mem (snd (attach unplugged)) !! camera_cell = Some (VPtr 11%N)
  /\ w_mem (snd (attach unplugged)) !! listener_cell = Some (VPtr 22%N).
Proof. vm_compute. repeat split; reflexivity. Qed.

Example attach_init_fails :
  fst (attach init_fails) = 1024
  /\ w_mem (snd (attach init_fails)) !! camera_cell = Some (VPtr 64%N)
  /\ w_mem (snd (attach init_fails)) !! listener_cell = Some (VPtr 22%N).
Proof. vm_compute. repeat split; reflexivity. Qed.

Example attach_register_fails :
  fst (attach register_fails) = 1030
  /\ w_mem (snd (attach register_fails)) !! camera_cell = Some (VPtr 64%N)
  /\ w_mem (snd (attach register_fails)) !! listener_cell = Some (VPtr 1%N).
Proof. vm_compute. repeat split; reflexivity. Qed.

(** Attach, three frames, delete: the whole session as the SDK and the
    foreign callback see it. *)
Example session_trace :
  let w1 := snd (attach healthy) in
  let w2 := call_void (deliver (St := rig) 1%N [500%N; 501%N; 502%N]) w1 in
  let w3 := camera_delete sdk 64%N 1%N w2 in
  w_trace w3 =
    [EvGetConnectedCameraList; EvCreateCamera camera_id; EvInitialize 64%N;
     EvNew ScalarForm 1%N; EvRegisterDataListener 64%N 1%N;
     EvCallback on_frame 500%N context; EvCallback on_frame 501%N context;
     EvCallback on_frame 502%N context;
     EvUnregisterDataListener 64%N; EvDelete ScalarForm 1%N;
     EvDestroyCameraDevice 64%N]
  /\ w_faults w3 = []
  /\ w_heap w3 !! 1%N = None.
Proof. vm_compute. repeat split; reflexivity. Qed.

(** The status string for SUCCESS has seven characters; the block has
    seven bytes; the eighth write, the terminator, is past its end. *)
Example status_string_terminator_past_end :
  let r := camera_status_to_string sdk 0 (world healthy) in
  capacity (snd r) (fst r) = Some 7%nat
  /\ holds_c_string (snd r) (fst r) (status_string success) = false
  /\ w_faults (snd r) = [OutOfBoundsWrite (fst r) 7 x00].
Proof. vm_compute. repeat split; reflexivity. Qed.

Example use_case_terminator_past_end :
  let '(vector, w1) := new_string_vector (world healthy) in
  let '(status, w2) := camera_get_use_cases sdk 64%N vector w1 in
  let r := string_vector_get vector 0 w2 in
  status = 0
  /\ fst (string_vector_length vector w2) = 1
  /\ capacity (snd r) (fst r) = Some 11%nat
  /\ holds_c_string (snd r) (fst r) mode_9_5fps = false
  /\ w_faults (snd r) = [OutOfBoundsWrite (fst r) 11 x00].
Proof. vm_compute. repeat split; reflexivity. Qed.

(** Releasing the status string: [delete] on a block from [new char[n]]. *)
Example delete_string_on_status_string :
  let r := camera_status_to_string sdk 1024 (world healthy) in
  w_faults (delete_string (fst r) (snd r)) =
    [OutOfBoundsWrite (fst r) 13 x00;
     MismatchedDelete (fst r) ArrayForm ScalarForm].
Proof. vm_compute. reflexivity. Qed.

(** A failing [getExposureLimits] that wrote half of the pair: the caller's
    cells keep their contents. *)
Example exposure_limits_failure :
  let r := camera_get_exposure_limits sdk 64%N low_cell high_cell
             (world limits_fail) in
  fst r = 1030
  /\ w_mem (snd r) !! low_cell = Some (VU32 7)
  /\ w_mem (snd r) !! high_cell = Some (VU32 8).
Proof. vm_compute. repeat split; reflexivity. Qed.

Example exposure_limits_success :
  let r := camera_get_exposure_limits sdk 64%N low_cell high_cell
             (world healthy) in
  fst r = 0
  /\ w_mem (snd r) !! low_cell = Some (VU32 50)
  /\ w_mem (snd r) !! high_cell = Some (VU32 2000).
Proof. vm_compute. repeat split; reflexivity. Qed.

Lemma rig_keeps_exposure_mode : sdk_keeps_exposure_mode sdk.
Proof.
  intros dev m before m' s s1 s2 status Hset Hget _.
  simpl in Hset, Hget. injection Hset as <-. injection Hget as _ <- _.
  reflexivity.
Defined.


(** ** The theorems at concrete inputs *)

Lemma camera_attach_no_camera_witness :
  length (fst (getConnectedCameraList sdk (w_sdk (world unplugged)))) = 0%nat
  /\ fst (attach unplugged) = static_cast_int (SUCCESS sdk)
  /\ w_mem (snd (attach unplugged)) !! camera_cell
       = w_mem (world unplugged) !! camera_cell
  /\ w_mem (snd (attach unplugged)) !! listener_cell
       = w_mem (world unplugged) !! listener_cell.
Proof.
  split; [reflexivity |].
  destruct (camera_attach_no_camera sdk on_frame context camera_cell
              listener_cell (world unplugged)) as (Hret & Hcam & Hlis & _).
  { reflexivity. }
  split; [exact Hret | split; [exact Hcam | exact Hlis]].
Defined.

Lemma camera_attach_null_device_witness :
  fst (attach no_device) = static_cast_int (SUCCESS sdk)
  /\ w_mem (snd (attach no_device)) !! camera_cell = Some (VPtr nullptr)
  /\ w_mem (snd (attach no_device)) !! listener_cell
       = w_mem (world no_device) !! listener_cell
  /\ w_heap (snd (attach no_device)) = ∅.
Proof.
  destruct (camera_attach_null_device sdk on_frame context camera_cell
              listener_cell (world no_device) camera_id [] no_device
              no_device)
    as (Hret & _ & Hcam & Hlis & Hheap & _).
  { reflexivity. }
  { reflexivity. }
  split; [exact Hret |]. split; [exact Hcam |].
  split; [apply Hlis; vm_compute; discriminate | exact Hheap].
Defined.

Lemma camera_attach_failure_after_creation_witness :
  (fst (attach init_fails) = static_cast_int runtime_error
   /\ w_mem (snd (attach init_fails)) !! camera_cell = Some (VPtr 64%N)
   /\ w_mem (snd (attach init_fails)) !! listener_cell
        = w_mem (world init_fails) !! listener_cell)
  /\
  (fst (attach register_fails) = static_cast_int device_is_busy
   /\ w_mem (snd (attach register_fails)) !! camera_cell = Some (VPtr 64%N)
   /\ w_mem (snd (attach register_fails)) !! listener_cell
        = Some (VPtr (fresh_ptr ∅))
   /\ w_heap (snd (attach register_fails)) !! fresh_ptr ∅
        = Some (mkBlock ScalarForm (DataListener on_frame context))).
Proof.
  split.
  - destruct (camera_attach_failure_after_creation sdk on_frame context
                camera_cell listener_cell (world init_fails) camera_id []
                init_fails init_fails 64%N) as [Hinit _].
    { reflexivity. }
    { reflexivity. }
    { vm_compute. discriminate. }
    destruct (Hinit runtime_error init_fails)
      as (Hret & _ & _ & Hcam & Hlis & _).
    { reflexivity. }
    { vm_compute. discriminate. }
    split; [exact Hret |]. split; [exact Hcam |].
    apply Hlis. vm_compute. discriminate.
  - destruct (camera_attach_failure_after_creation sdk on_frame context
                camera_cell listener_cell (world register_fails) camera_id []
                register_fails register_fails 64%N) as [_ Hreg].
    { reflexivity. }
    { reflexivity. }
    { vm_compute. discriminate. }
    destruct (Hreg device_is_busy register_fails register_fails)
      as (Hret & _ & _ & Hlis & Hcam & _ & Hheap).
    { reflexivity. }
    { reflexivity. }
    { vm_compute. discriminate. }
    split; [exact Hret |].
    split; [apply Hcam; vm_compute; discriminate |].
    split; [exact Hlis |].
    change (attach register_fails) with
      (camera_attach sdk on_frame context camera_cell listener_cell
         (world register_fails)).
    rewrite Hheap. apply lookup_insert_eq.
Defined.

Lemma camera_get_exposure_limits_writes_on_success_only_witness :
  (fst (camera_get_exposure_limits sdk 64%N low_cell high_cell
          (world limits_fail)) = static_cast_int device_is_busy
   /\ w_mem (snd (camera_get_exposure_limits sdk 64%N low_cell high_cell
                    (world limits_fail))) = caller_mem)
  /\
  (fst (camera_get_exposure_limits sdk 64%N low_cell high_cell
          (world healthy)) = static_cast_int success
   /\ w_mem (snd (camera_get_exposure_limits sdk 64%N low_cell high_cell
                    (world healthy)))
      = <[high_cell := VU32 2000]> (<[low_cell := VU32 50]> caller_mem)).
Proof.
  split.
  - destruct (camera_get_exposure_limits_writes_on_success_only sdk 64%N
                low_cell high_cell (world limits_fail) device_is_busy
                (mkPair 50 0) limits_fail) as (Hret & Hfail & _).
    { reflexivity. }
    split; [exact Hret |]. apply Hfail. vm_compute. discriminate.
  - destruct (camera_get_exposure_limits_writes_on_success_only sdk 64%N
                low_cell high_cell (world healthy) success
                (mkPair 50 2000) healthy) as (Hret & _ & Hok & _).
    { reflexivity. }
    split; [exact Hret |]. apply Hok. reflexivity.
Defined.

Lemma exposure_mode_mapping_and_round_trip_witness :
  w_mem
    (snd (camera_get_exposure_mode sdk AUTOMATIC 64%N is_manual_cell
            (snd (camera_set_exposure_mode sdk 64%N true (world healthy)))))
    !! is_manual_cell = Some (VBool true)
  /\
  w_mem
    (snd (camera_get_exposure_mode sdk MANUAL 64%N is_manual_cell
            (snd (camera_set_exposure_mode sdk 64%N false (world healthy)))))
    !! is_manual_cell = Some (VBool false).
Proof.
  destruct (exposure_mode_mapping_and_round_trip sdk) as (_ & _ & Hround).
  split.
  - apply (Hround rig_keeps_exposure_mode AUTOMATIC 64%N is_manual_cell true
             (world healthy)); reflexivity.
  - apply (Hround rig_keeps_exposure_mode MANUAL 64%N is_manual_cell false
             (world healthy)); reflexivity.
Defined.

Lemma camera_delete_order_witness :
  let w := snd (attach healthy) in
  let w' := camera_delete sdk 64%N 1%N w in
  registered (w_sdk w) = Some 1%N
  /\ w_sdk w' =
       destroyCameraDevice sdk 64%N
         (snd (unregisterDataListener sdk 64%N (w_sdk w)))
  /\ registered (w_sdk w') = None
  /\ w_heap w' !! 1%N = None
  /\ w_trace w' =
       w_trace w
       ++ [EvUnregisterDataListener 64%N; EvDelete ScalarForm 1%N;
           EvDestroyCameraDevice 64%N]
  /\ w_faults w' = w_faults w.
Proof.
  destruct (camera_delete_order sdk 64%N 1%N (snd (attach healthy)))
    as [Hlive _].
  destruct Hlive as (Hsdk & _ & Hdead & Htrace & _ & Hfaults).
  { discriminate. }
  { discriminate. }
  split; [vm_compute; reflexivity |].
  split; [exact Hsdk |].
  split; [cbv zeta; rewrite Hsdk; vm_compute; reflexivity |].
  split; [exact Hdead |]. split; [exact Htrace |].
  apply (Hfaults (DataListener on_frame context)).
  vm_compute. reflexivity.
Defined.

Lemma onNewData_forwards_frame_and_payload_witness :
  w_trace (call_void (deliver (St := rig) 1%N [500%N; 501%N])
             (snd (attach healthy)))
  = w_trace (snd (attach healthy))
    ++ [EvCallback on_frame 500%N context; EvCallback on_frame 501%N context].
Proof.
  destruct (onNewData_forwards_frame_and_payload 1%N ScalarForm on_frame
              context (snd (attach healthy))) as [_ Hall].
  { vm_compute. reflexivity. }
  rewrite (Hall [500%N; 501%N]). reflexivity.
Defined.

Lemma c_string_terminator_written_past_allocation_witness :
  let r := camera_status_to_string sdk 0 (world healthy) in
  capacity (snd r) (fst r) = Some 7%nat
  /\ holds_c_string (snd r) (fst r) (status_string success) = false
  /\ w_faults (snd r) = [] ++ [OutOfBoundsWrite (fst r) 7 x00].
Proof.
  destruct (c_string_terminator_written_past_allocation sdk) as [Hstatus _].
  apply (Hstatus 0 (world healthy)).
  vm_compute. repeat constructor; discriminate.
Defined.

Lemma delete_string_form_differs_from_allocation_witness :
  let r := camera_status_to_string sdk 0 (world healthy) in
  blk_form <$> (w_heap (snd r) !! fst r) = Some ArrayForm
  /\ w_faults (delete_string (fst r) (snd r)) =
       w_faults (snd r) ++ [MismatchedDelete (fst r) ArrayForm ScalarForm]
  /\ w_trace (delete_string (fst r) (snd r)) =
       w_trace (snd r) ++ [EvDelete ScalarForm (fst r)].
Proof.
  destruct (delete_string_form_differs_from_allocation sdk) as [Hstatus _].
  apply (Hstatus 0 (world healthy)).
Defined.

End BenchRuns.

(** * Further properties: attachment, delivery, deletion, configuration *)

Section LifecycleProperties.

Context {St : Type} (sdk : Royale St).

Ltac run :=
  cbv beta iota zeta delta
    [call_void call bind TRY sdk_call store load_ptr new emit raise ret
     return_ OK reinterpret_cast toCameraDevice];
  simpl.

Lemma is_camera_status_success_of_status (status : CameraStatus) :
  is_camera_status_success sdk (static_cast_int status)
  = status_eqb status (SUCCESS sdk).
Proof. destruct status. reflexivity. Qed.

(** Every path through [camera_attach], one goal per path. *)
Ltac attach_paths w :=
  unfold camera_attach, camera_attach_body; run;
  destruct (getConnectedCameraList sdk (w_sdk w)) as [[| id0 rest] s1];
  simpl;
  [| destruct (createCamera sdk id0 s1) as [dev s2]; simpl;
     destruct (non_null dev) eqn:Hnn; simpl;
     [ destruct (initialize sdk dev s2) as [st3 s3]; simpl;
       destruct (status_eqb st3 (SUCCESS sdk)) eqn:Hinit; simpl;
       [ rewrite ?lookup_insert_eq;
         destruct (registerDataListener sdk dev (fresh_ptr (w_heap w)) s3)
           as [st4 s4]; simpl;
         destruct (status_eqb st4 (SUCCESS sdk)) eqn:Hreg; simpl
       | ]
     | ] ].

(** X1.  Whatever the SDK answers, [camera_attach] records no fault, keeps
    every heap block that was live before the call, and changes no cell of
    the store other than the two out-parameter cells. *)
Theorem camera_attach_frame
  (callback payload camera listener : ptr) (w : World St) :
  let r := camera_attach sdk callback payload camera listener w in
  w_faults (snd r) = w_faults w
  /\ w_heap w ⊆ w_heap (snd r)
  /\ (forall cell : ptr,
        cell ≠ camera -> cell ≠ listener ->
        w_mem (snd r) !! cell = w_mem w !! cell).
Proof.
  cbv zeta. attach_paths w;
    (split; [reflexivity |]; split;
     [ first [ reflexivity | apply insert_subseteq, fresh_ptr_unused ]
     | intros cell Hc Hl; rewrite ?lookup_insert_ne by congruence;
       reflexivity ]).
Qed.


(** X3.  When every SDK step succeeds, [camera_attach] returns SUCCESS;
    behind [listener] is a non-null address that was not in use before, at
    which a listener holding the caller's callback and payload now lives;
    the SDK was given that same address at registration; and behind
    [camera] (a cell distinct from [listener]) is the device handle. *)
Theorem camera_attach_success_handles
  (callback payload camera listener : ptr) (w : World St)
  (id0 : String) (rest : list String) (s1 s2 s3 s4 : St)
  (cameraDevice : ptr) :
  getConnectedCameraList sdk (w_sdk w) = (id0 :: rest, s1) ->
  createCamera sdk id0 s1 = (cameraDevice, s2) ->
  cameraDevice ≠ nullptr ->
  initialize sdk cameraDevice s2 = (SUCCESS sdk, s3) ->
  registerDataListener sdk cameraDevice (fresh_ptr (w_heap w)) s3
    = (SUCCESS sdk, s4) ->
  let r := camera_attach sdk callback payload camera listener w in
  let l := read_ptr (snd r) listener in
  is_camera_status_success sdk (fst r) = true
  /\ l ≠ nullptr
  /\ w_heap w !! l = None
  /\ w_heap (snd r) !! l
       = Some (mkBlock ScalarForm (DataListener callback payload))
  /\ last (w_trace (snd r)) = Some (EvRegisterDataListener cameraDevice l)
  /\ w_sdk (snd r) = s4
  /\ (listener ≠ camera -> read_ptr (snd r) camera = cameraDevice).
Proof.
  intros Hlist Hcreate Hdev Hinit Hreg. cbv zeta.
  rewrite (camera_attach_success sdk callback payload camera listener w
             id0 rest s1 s2 s3 s4 cameraDevice Hlist Hcreate Hdev Hinit Hreg).
  unfold read_ptr. simpl. rewrite lookup_insert_eq.
  split; [rewrite is_camera_status_success_of_status;
          apply status_eqb_refl |].
  split; [apply fresh_ptr_non_null |].
  split; [apply fresh_ptr_unused |].
  split; [apply lookup_insert_eq |].
  split; [rewrite last_app; reflexivity |].
  split; [reflexivity |].
  intros Hne. rewrite lookup_insert_ne by congruence.
  rewrite lookup_insert_eq. reflexivity.
Qed.


(** X4.  After a successful [camera_attach], every frame the SDK delivers
    to the address found behind [listener] reaches the callback given to
    [camera_attach], with the payload given to [camera_attach]: one
    invocation per frame, in order, and no fault. *)
Theorem attach_then_deliver
  (callback payload camera listener : ptr) (w : World St)
  (id0 : String) (rest : list String) (s1 s2 s3 s4 : St)
  (cameraDevice : ptr) (frames : list ptr) :
  getConnectedCameraList sdk (w_sdk w) = (id0 :: rest, s1) ->
  createCamera sdk id0 s1 = (cameraDevice, s2) ->
  cameraDevice ≠ nullptr ->
  initialize sdk cameraDevice s2 = (SUCCESS sdk, s3) ->
  registerDataListener sdk cameraDevice (fresh_ptr (w_heap w)) s3
    = (SUCCESS sdk, s4) ->
  let w1 := snd (camera_attach sdk callback payload camera listener w) in
  let w2 := call_void (deliver (read_ptr w1 listener) frames) w1 in
  w_trace w2 =
    w_trace w1 ++ map (fun data => EvCallback callback data payload) frames
  /\ w_faults w2 = w_faults w
  /\ w_heap w2 = w_heap w1
  /\ w_mem w2 = w_mem w1.
Proof.
  intros Hlist Hcreate Hdev Hinit Hreg. cbv zeta.
  rewrite (camera_attach_success sdk callback payload camera listener w
             id0 rest s1 s2 s3 s4 cameraDevice Hlist Hcreate Hdev Hinit Hreg).
  unfold read_ptr. simpl. rewrite lookup_insert_eq.
  unfold call_void, call.
  rewrite (deliver_run _ ScalarForm callback payload)
    by apply lookup_insert_eq.
  simpl. repeat split; reflexivity.
Qed.

(** What [camera_delete] does to the store, the heap and the fault log. *)
Lemma camera_delete_effect (camera listener : ptr) (w : World St) :
  let w' := camera_delete sdk camera listener w in
  w_mem w' = w_mem w
  /\ w_heap w' =
       (if non_null listener then base.delete listener (w_heap w)
        else w_heap w)
  /\ w_faults w' =
       w_faults w
       ++ (if non_null listener then
             match w_heap w !! listener with
             | Some b =>
                 if alloc_form_eqb (blk_form b) ScalarForm then []
                 else [MismatchedDelete listener (blk_form b) ScalarForm]
             | None => [InvalidDelete listener]
             end
           else []).
Proof.
  unfold camera_delete, camera_delete_body, delete, delete_device. run.
  destruct (non_null listener); simpl.
  - destruct (unregisterDataListener sdk camera (w_sdk w)) as [st s1]. simpl.
    destruct (w_heap w !! listener) as [[form obj] |]; simpl.
    + destruct (alloc_form_eqb form ScalarForm); simpl;
        destruct (non_null camera); simpl; rewrite ?app_nil_r;
        repeat split; reflexivity.
    + destruct (non_null camera); simpl; repeat split; reflexivity.
  - destruct (non_null camera); simpl; rewrite app_nil_r;
      repeat split; reflexivity.
Qed.

(** X5.  [attach_then_delete] leaves the heap and the fault log exactly as
    it found them, whatever the SDK answers at any step: no camera,
    a null device, a failed initialisation, a failed registration or full
    success.  The listener [camera_attach] allocated is the one
    [camera_delete] releases, with the matching form; when none was
    allocated none is released. *)
Theorem attach_then_delete_restores_heap
  (callback payload camera listener : ptr) (w : World St) :
  camera ≠ listener ->
  let w' := attach_then_delete sdk callback payload camera listener w in
  w_heap w' = w_heap w /\ w_faults w' = w_faults w.
Proof.
  intros Hne. unfold attach_then_delete.
  set (w0 := call_void _ w).
  assert (Hheap0 : w_heap w0 = w_heap w) by reflexivity.
  assert (Hfaults0 : w_faults w0 = w_faults w) by reflexivity.
  assert (Hcam0 : w_mem w0 !! camera = Some (VPtr nullptr)).
  { subst w0. run. rewrite lookup_insert_ne by congruence.
    apply lookup_insert_eq. }
  assert (Hlis0 : w_mem w0 !! listener = Some (VPtr nullptr)).
  { subst w0. run. apply lookup_insert_eq. }
  rewrite <- Hheap0, <- Hfaults0. clearbody w0. clear Hheap0 Hfaults0 w.
  cbv zeta.
  destruct (camera_delete_effect
              (read_ptr (snd (camera_attach sdk callback payload camera
                                listener w0)) camera)
              (read_ptr (snd (camera_attach sdk callback payload camera
                                listener w0)) listener)
              (snd (camera_attach sdk callback payload camera listener w0)))
    as (_ & -> & ->).
  unfold read_ptr. attach_paths w0.
  - rewrite Hlis0. simpl. rewrite app_nil_r. split; reflexivity.
  - rewrite lookup_insert_eq.
    assert (Hl : non_null (fresh_ptr (w_heap w0)) = true)
      by apply non_null_true, fresh_ptr_non_null.
    rewrite Hl, lookup_insert_eq. simpl.
    rewrite delete_insert_eq, delete_id by apply fresh_ptr_unused.
    rewrite app_nil_r. split; reflexivity.
  - rewrite lookup_insert_eq.
    assert (Hl : non_null (fresh_ptr (w_heap w0)) = true)
      by apply non_null_true, fresh_ptr_non_null.
    rewrite Hl, lookup_insert_eq. simpl.
    rewrite delete_insert_eq, delete_id by apply fresh_ptr_unused.
    rewrite app_nil_r. split; reflexivity.
  - rewrite lookup_insert_ne by congruence. rewrite Hlis0. simpl.
    rewrite app_nil_r. split; reflexivity.
  - rewrite lookup_insert_ne by congruence. rewrite Hlis0. simpl.
    rewrite app_nil_r. split; reflexivity.
Qed.

(** X6.  [camera_delete] with a non-null listener obtained from [new]
    records no fault, removes that one block from the heap and no other,
    and does not touch the store.  The listener address is dead
    afterwards. *)
Theorem camera_delete_releases_listener
  (camera listener : ptr) (obj : object) (w : World St) :
  listener ≠ nullptr ->
  w_heap w !! listener = Some (mkBlock ScalarForm obj) ->
  let w' := camera_delete sdk camera listener w in
  w_faults w' = w_faults w
  /\ w_heap w' !! listener = None
  /\ (forall p : ptr, p ≠ listener -> w_heap w' !! p = w_heap w !! p)
  /\ w_mem w' = w_mem w.
Proof.
  intros Hnn Hblk. cbv zeta.
  destruct (camera_delete_effect camera listener w) as (-> & -> & ->).
  apply non_null_true in Hnn. rewrite Hnn, Hblk. simpl.
  rewrite app_nil_r.
  split; [reflexivity |]. split; [apply lookup_delete_eq |].
  split; [| reflexivity].
  intros p Hp. apply lookup_delete_ne. congruence.
Qed.

(** X8.  When the SDK's [getExposureMode] answers with a status other than
    SUCCESS, [camera_get_exposure_mode] returns that status, which
    [is_camera_status_success] rejects, and stores nothing: the cell behind
    [isManual] and the rest of the store are unchanged, whatever the SDK
    left in the local mode. *)
Theorem camera_get_exposure_mode_failure
  (indeterminate : ExposureMode) (camera isManual : ptr) (w : World St)
  (status : CameraStatus) (mode : ExposureMode) (s1 : St) :
  getExposureMode sdk camera indeterminate (w_sdk w) = (status, mode, s1) ->
  status ≠ SUCCESS sdk ->
  let r := camera_get_exposure_mode sdk indeterminate camera isManual w in
  fst r = static_cast_int status
  /\ is_camera_status_success sdk (fst r) = false
  /\ w_mem (snd r) = w_mem w
  /\ w_heap (snd r) = w_heap w.
Proof.
  intros Hget Hfail. cbv zeta.
  rewrite camera_get_exposure_mode_run. simpl. rewrite Hget. simpl.
  apply status_eqb_neq in Hfail.
  rewrite is_camera_status_success_of_status, Hfail.
  repeat split; reflexivity.
Qed.

(** X14.  After a successful [camera_get_exposure_limits] the cell behind
    [high] holds the upper limit and, when [low] is a different cell, the
    cell behind [low] holds the lower limit; a caller that passes one cell
    for both finds the upper limit in it, since [high] is stored last.  No
    other cell of the store changes. *)
Theorem camera_get_exposure_limits_read_back
  (camera low high : ptr) (w : World St) (limits : Pair) (s1 : St) :
  getExposureLimits sdk camera (mkPair 0 0) (w_sdk w)
    = (SUCCESS sdk, limits, s1) ->
  let r := camera_get_exposure_limits sdk camera low high w in
  is_camera_status_success sdk (fst r) = true
  /\ w_mem (snd r) !! high = Some (VU32 (second limits))
  /\ (low ≠ high -> w_mem (snd r) !! low = Some (VU32 (first limits)))
  /\ (forall cell : ptr,
        cell ≠ low -> cell ≠ high ->
        w_mem (snd r) !! cell = w_mem w !! cell)
  /\ w_heap (snd r) = w_heap w.
Proof.
  intros Hsdk. unfold camera_get_exposure_limits,
    camera_get_exposure_limits_body. run.
  rewrite Hsdk. simpl. rewrite status_eqb_refl. simpl.
  split.
  { rewrite is_camera_status_success_of_status. apply status_eqb_refl. }
  split; [apply lookup_insert_eq |].
  split.
  - intros Hne. rewrite lookup_insert_ne by congruence.
    apply lookup_insert_eq.
  - split; [| reflexivity].
    intros cell Hl Hh. rewrite !lookup_insert_ne by congruence.
    reflexivity.
Qed.

End LifecycleProperties.

(** * Further properties: C strings and the string vector *)

Section StringProperties.

Context {St : Type} (sdk : Royale St).

(** A source with a null byte inside the room the block has: the copy
    stops there, in bounds. *)
Lemma strcpy_from_stops_at_null_byte
  {R : Type} (dst : ptr) (form : alloc_form) (pre rest : list byte) :
  no_null_byte pre ->
  forall (offset : nat) (cells : list (option byte)) (w : World St),
    w_heap w !! dst = Some (mkBlock form (ObjChars cells)) ->
    (offset + length pre < length cells)%nat ->
    strcpy_from (R := R) dst offset (pre ++ x00 :: rest) w =
      (Next tt,
       mkWorld (w_sdk w) (w_mem w)
         (<[dst := mkBlock form
                     (ObjChars
                        (take offset cells ++ (Some <$> pre)
                         ++ Some x00 :: drop (S (offset + length pre)) cells))]>
            (w_heap w))
         (w_trace w) (w_faults w)).
Proof.
  induction 1 as [| b pre' Hb Hpre' IH]; intros offset cells w Hblk Hlen.
  - simpl in *. unfold bind, store_byte. rewrite Hblk.
    assert (Hlt : (offset <? length cells)%nat = true)
      by (apply Nat.ltb_lt; lia).
    rewrite Hlt. simpl. unfold ret.
    rewrite Nat.add_0_r, insert_take_drop by lia. reflexivity.
  - simpl in *. unfold bind at 1. unfold store_byte at 1. rewrite Hblk.
    assert (Hlt : (offset <? length cells)%nat = true)
      by (apply Nat.ltb_lt; lia).
    rewrite Hlt. rewrite (byte_eqb_x00_false _ Hb).
    rewrite (IH (S offset) (<[offset := Some b]> cells)); simpl.
    + rewrite insert_insert_eq.
      rewrite (take_S_r _ _ (Some b))
        by (apply list_lookup_insert_eq, Nat.ltb_lt, Hlt).
      rewrite take_insert_ge by lia.
      rewrite drop_insert_lt by lia.
      rewrite <- app_assoc. simpl.
      replace (S (offset + length pre')) with (offset + S (length pre'))%nat
        by lia.
      reflexivity.
    + apply lookup_insert_eq.
    + rewrite length_insert. lia.
Qed.

Lemma copy_to_new_char_array_cut_short
  (pre post : String) (w : World St) :
  no_null_byte pre ->
  let output := fresh_ptr (w_heap w) in
  call (copy_to_new_char_array (pre ++ x00 :: post)) w =
    (output,
     mkWorld (w_sdk w) (w_mem w)
       (<[output := mkBlock ArrayForm
                      (ObjChars ((Some <$> pre)
                                 ++ Some x00 :: replicate (length post) None))]>
          (w_heap w))
       (w_trace w ++ [EvNew ArrayForm output])
       (w_faults w)).
Proof.
  intros Hpre output.
  unfold copy_to_new_char_array, new_char_array, call, strcpy, data.
  unfold bind at 1. unfold new at 1. fold output.
  unfold bind at 1. rewrite <- app_assoc. simpl.
  rewrite (strcpy_from_stops_at_null_byte output ArrayForm pre
             (post ++ [x00]) Hpre 0
             (replicate (size (pre ++ x00 :: post)) None)); simpl.
  - rewrite insert_insert_eq. unfold size. rewrite length_app. simpl.
    replace (length pre + S (length post))%nat
      with (S (length pre) + length post)%nat by lia.
    rewrite drop_replicate_add. reflexivity.
  - apply lookup_insert_eq.
  - rewrite length_replicate. unfold size. rewrite length_app. simpl. lia.
Qed.

Lemma cut_short_summary (pre post : String) (w : World St) :
  no_null_byte pre ->
  let r := call (copy_to_new_char_array (pre ++ x00 :: post)) w in
  w_heap (snd r) !! fst r =
    Some (mkBlock ArrayForm
            (ObjChars ((Some <$> pre)
                       ++ Some x00 :: replicate (length post) None)))
  /\ holds_c_string (snd r) (fst r) pre = true
  /\ w_faults (snd r) = w_faults w.
Proof.
  intros Hpre. cbv zeta.
  rewrite (copy_to_new_char_array_cut_short pre post w Hpre). simpl.
  unfold holds_c_string. simpl. rewrite lookup_insert_eq.
  split; [reflexivity |]. split; [| reflexivity].
  apply bool_decide_eq_true. unfold data.
  rewrite fmap_app. simpl.
  replace ((Some <$> pre) ++ Some x00 :: replicate (length post) None)
    with (((Some <$> pre) ++ [Some x00]) ++ replicate (length post) None)
    by (rewrite <- app_assoc; reflexivity).
  apply take_app_length'.
  rewrite !length_app, length_fmap. reflexivity.
Qed.

(** X9.  An SDK string with a null byte inside is cut at its first null
    byte: [camera_status_to_string] and [string_vector_get] copy the
    characters before it and the null byte, all inside the block, leave the
    rest of the block unwritten, and record no fault.  The block then holds
    the null-terminated string of the characters before the null byte. *)
Theorem c_string_cut_at_first_null_byte :
  (forall (camera_status : Z) (pre post : String) (w : World St),
      getStatusString sdk (toCameraStatus camera_status)
        = pre ++ x00 :: post ->
      no_null_byte pre ->
      let r := camera_status_to_string sdk camera_status w in
      w_heap (snd r) !! fst r =
        Some (mkBlock ArrayForm
                (ObjChars ((Some <$> pre)
                           ++ Some x00 :: replicate (length post) None)))
      /\ holds_c_string (snd r) (fst r) pre = true
      /\ w_faults (snd r) = w_faults w)
  /\
  (forall (vector : ptr) (index : Z) (form : alloc_form)
          (elems : list String) (pre post : String) (w : World St),
      w_heap w !! vector = Some (mkBlock form (ObjStringVector elems)) ->
      0 <= index ->
      elems !! Z.to_nat index = Some (pre ++ x00 :: post) ->
      no_null_byte pre ->
      let r := string_vector_get vector index w in
      w_heap (snd r) !! fst r =
        Some (mkBlock ArrayForm
                (ObjChars ((Some <$> pre)
                           ++ Some x00 :: replicate (length post) None)))
      /\ holds_c_string (snd r) (fst r) pre = true
      /\ w_faults (snd r) = w_faults w).
Proof.
  split.
  - intros camera_status pre post w Hstr Hpre r. subst r.
    rewrite camera_status_to_string_unfold, Hstr.
    apply cut_short_summary, Hpre.
  - intros vector index form elems pre post w Hvec Hidx Hget Hpre r. subst r.
    rewrite (string_vector_get_unfold _ _ _ _ _ _ Hvec Hidx Hget).
    apply cut_short_summary, Hpre.
Qed.


(** X10.  For an element with a null byte inside, where the copy stays
    within the block it allocates, an in-range [string_vector_get] is a
    pure fresh copy: it returns a non-null address that was not in use,
    records no fault, and leaves every block that was live, the vector
    included, and the whole store as they were.  So the vector can be read
    again, and a second read of the same element returns a different
    address: every returned string is the caller's to release. *)
Theorem string_vector_get_is_fresh_copy
  (vector : ptr) (index : Z) (form : alloc_form) (elems : list String)
  (pre post : String) (w : World St) :
  w_heap w !! vector = Some (mkBlock form (ObjStringVector elems)) ->
  0 <= index ->
  elems !! Z.to_nat index = Some (pre ++ x00 :: post) ->
  no_null_byte pre ->
  let r := string_vector_get vector index w in
  fst r ≠ nullptr
  /\ w_heap w !! fst r = None
  /\ w_faults (snd r) = w_faults w
  /\ (forall p : ptr, p ≠ fst r -> w_heap (snd r) !! p = w_heap w !! p)
  /\ w_heap (snd r) !! vector = Some (mkBlock form (ObjStringVector elems))
  /\ w_mem (snd r) = w_mem w
  /\ fst (string_vector_get vector index (snd r)) ≠ fst r.
Proof.
  intros Hvec Hidx Hget Hpre. cbv zeta.
  rewrite (string_vector_get_unfold _ _ _ _ _ _ Hvec Hidx Hget).
  rewrite (copy_to_new_char_array_cut_short pre post w Hpre). simpl.
  set (blk := mkBlock ArrayForm
                (ObjChars ((Some <$> pre)
                           ++ Some x00 :: replicate (length post) None))).
  assert (Hfresh : w_heap w !! fresh_ptr (w_heap w) = None)
    by apply fresh_ptr_unused.
  assert (Hvne : fresh_ptr (w_heap w) ≠ vector) by congruence.
  assert (Hvec' :
    <[fresh_ptr (w_heap w) := blk]> (w_heap w) !! vector
      = Some (mkBlock form (ObjStringVector elems))).
  { rewrite lookup_insert_ne by exact Hvne. exact Hvec. }
  split; [apply fresh_ptr_non_null |]. split; [exact Hfresh |].
  split; [reflexivity |].
  split; [intros p Hp; apply lookup_insert_ne; congruence |].
  split; [exact Hvec' |]. split; [reflexivity |].
  rewrite (string_vector_get_unfold vector index form elems
             (pre ++ x00 :: post) (mkWorld _ _ _ _ _) Hvec' Hidx Hget).
  rewrite (copy_to_new_char_array_cut_short pre post _ Hpre). simpl.
  intros Heq.
  pose proof (fresh_ptr_unused (<[fresh_ptr (w_heap w) := blk]> (w_heap w)))
    as Hunused.
  rewrite Heq, lookup_insert_eq in Hunused. discriminate.
Qed.

Lemma camera_get_use_cases_run
  (camera vector : ptr) (form : alloc_form) (elems : list String)
  (w : World St) :
  w_heap w !! vector = Some (mkBlock form (ObjStringVector elems)) ->
  let r := getUseCases sdk camera elems (w_sdk w) in
  camera_get_use_cases sdk camera vector w =
    (static_cast_int (fst (fst r)),
     mkWorld (snd r) (w_mem w)
       (<[vector := mkBlock form (ObjStringVector (snd (fst r)))]> (w_heap w))
       (w_trace w ++ [EvGetUseCases camera]) (w_faults w)).
Proof.
  intros Hvec. unfold camera_get_use_cases, camera_get_use_cases_body, call.
  rewrite Hvec.
  cbv beta iota zeta delta
    [bind TRY sdk_call ret return_ OK toCameraDevice reinterpret_cast].
  destruct (getUseCases sdk camera elems (w_sdk w)) as [[status names] s1].
  simpl.
  destruct (status_eqb status (SUCCESS sdk)) eqn:Hs; simpl.
  - apply status_eqb_eq in Hs. subst. reflexivity.
  - reflexivity.
Qed.

(** X11.  After [camera_get_use_cases], whatever status the SDK reported
    and [camera_get_use_cases] returned, the vector holds the names the SDK
    left in it: [string_vector_length] is their number, and
    [string_vector_get] at a position copies exactly the characters of the
    name at that position (for a name without a null byte), in order, into
    the block it returns. *)
Theorem use_cases_round_trip
  (camera vector : ptr) (form : alloc_form) (elems names : list String)
  (status : CameraStatus) (s1 : St) (w : World St) :
  w_heap w !! vector = Some (mkBlock form (ObjStringVector elems)) ->
  getUseCases sdk camera elems (w_sdk w) = (status, names, s1) ->
  let r := camera_get_use_cases sdk camera vector w in
  fst r = static_cast_int status
  /\ fst (string_vector_length vector (snd r)) = Z.of_nat (length names)
  /\ (forall (i : nat) (name : String),
        names !! i = Some name ->
        no_null_byte name ->
        let g := string_vector_get vector (Z.of_nat i) (snd r) in
        w_heap (snd g) !! fst g
          = Some (mkBlock ArrayForm (ObjChars (Some <$> name))))
  /\ w_faults (snd r) = w_faults w.
Proof.
  intros Hvec Hsdk. cbv zeta.
  rewrite (camera_get_use_cases_run camera vector form elems w Hvec).
  simpl. rewrite Hsdk. simpl.
  split; [reflexivity |].
  split.
  { unfold string_vector_length, call. simpl.
    rewrite lookup_insert_eq. reflexivity. }
  split; [| reflexivity].
  intros i name Hname Hnn.
  rewrite (string_vector_get_unfold vector (Z.of_nat i) form names name).
  - rewrite (copy_to_new_char_array_overrun name _ Hnn). simpl.
    apply lookup_insert_eq.
  - simpl. apply lookup_insert_eq.
  - lia.
  - rewrite Nat2Z.id. exact Hname.
Qed.

Lemma new_string_vector_run (w : World St) :
  new_string_vector w =
    (fresh_ptr (w_heap w),
     mkWorld (w_sdk w) (w_mem w)
       (<[fresh_ptr (w_heap w) := mkBlock ScalarForm (ObjStringVector [])]>
          (w_heap w))
       (w_trace w ++ [EvNew ScalarForm (fresh_ptr (w_heap w))])
       (w_faults w)).
Proof. reflexivity. Qed.

(** X12.  [new_string_vector] returns a non-null address that was not in
    use; the vector there is empty, so [string_vector_length] is 0; every
    block that was live is unchanged and no fault is recorded. *)
Theorem new_string_vector_is_empty (w : World St) :
  let r := new_string_vector (St := St) w in
  fst r ≠ nullptr
  /\ w_heap w !! fst r = None
  /\ fst (string_vector_length (fst r) (snd r)) = 0
  /\ (forall p : ptr, p ≠ fst r -> w_heap (snd r) !! p = w_heap w !! p)
  /\ w_faults (snd (string_vector_length (fst r) (snd r))) = w_faults w.
Proof.
  cbv zeta. rewrite new_string_vector_run. simpl.
  split; [apply fresh_ptr_non_null |].
  split; [apply fresh_ptr_unused |].
  unfold string_vector_length, call. simpl. rewrite lookup_insert_eq. simpl.
  split; [reflexivity |]. split; [| reflexivity].
  intros p Hp. apply lookup_insert_ne. congruence.
Qed.

(** X13.  [use_cases_then_delete] leaves the heap and the fault log as it
    found them, whatever the SDK wrote into the vector and whatever status
    it reported: [delete_string_vector] releases the block
    [new_string_vector] allocated, with the matching form. *)
Theorem use_cases_then_delete_restores_heap (camera : ptr) (w : World St) :
  let w' := use_cases_then_delete sdk camera w in
  w_heap w' = w_heap w /\ w_faults w' = w_faults w.
Proof.
  unfold use_cases_then_delete. cbv zeta.
  rewrite new_string_vector_run. simpl.
  rewrite (camera_get_use_cases_run camera _ ScalarForm [])
    by (simpl; apply lookup_insert_eq).
  simpl. unfold delete_string_vector, call_void, call, delete,
    reinterpret_cast.
  assert (Hnn : non_null (fresh_ptr (w_heap w)) = true)
    by apply non_null_true, fresh_ptr_non_null.
  rewrite Hnn. simpl. rewrite lookup_insert_eq. simpl.
  rewrite !delete_insert_eq, delete_id by apply fresh_ptr_unused.
  split; reflexivity.
Qed.

End StringProperties.

(** * The further properties on the bench *)

Module MoreBenchRuns.

Import Bench BenchWorlds.

Lemma camera_attach_success_handles_witness :
  is_camera_status_success sdk (fst (attach healthy)) = true
  /\ read_ptr attached listener_cell ≠ nullptr
  /\ w_heap attached !! read_ptr attached listener_cell
       = Some (mkBlock ScalarForm (DataListener on_frame context))
  /\ read_ptr attached camera_cell = 64%N.
Proof.
  destruct (camera_attach_success_handles sdk on_frame context camera_cell
              listener_cell (world healthy) camera_id [] healthy healthy
              healthy (with_registered (Some 1%N) healthy) 64%N)
    as (Hret & Hnn & _ & Hblk & _ & _ & Hcam).
  { reflexivity. }
  { reflexivity. }
  { discriminate. }
  { reflexivity. }
  { vm_compute. reflexivity. }
  split; [exact Hret |]. split; [exact Hnn |]. split; [exact Hblk |].
  apply Hcam. discriminate.
Defined.

Lemma attach_then_deliver_witness :
  w_trace (call_void (deliver (read_ptr attached listener_cell)
                        [500%N; 501%N; 502%N]) attached)
  = w_trace attached
    ++ [EvCallback on_frame 500%N context; EvCallback on_frame 501%N context;
        EvCallback on_frame 502%N context].
Proof.
  destruct (attach_then_deliver sdk on_frame context camera_cell
              listener_cell (world healthy) camera_id [] healthy healthy
              healthy (with_registered (Some 1%N) healthy) 64%N
              [500%N; 501%N; 502%N])
    as (Htrace & _).
  { reflexivity. }
  { reflexivity. }
  { discriminate. }
  { reflexivity. }
  { vm_compute. reflexivity. }
  exact Htrace.
Defined.

Lemma attach_then_delete_restores_heap_witness :
  (w_heap (attach_then_delete sdk on_frame context camera_cell listener_cell
             (world healthy)) = ∅
   /\ w_faults (attach_then_delete sdk on_frame context camera_cell
                  listener_cell (world healthy)) = [])
  /\
  (w_heap (attach_then_delete sdk on_frame context camera_cell listener_cell
             (world register_fails)) = ∅
   /\ w_faults (attach_then_delete sdk on_frame context camera_cell
                  listener_cell (world register_fails)) = []).
Proof.
  split.
  - apply (attach_then_delete_restores_heap sdk on_frame context camera_cell
             listener_cell (world healthy)). discriminate.
  - apply (attach_then_delete_restores_heap sdk on_frame context camera_cell
             listener_cell (world register_fails)). discriminate.
Defined.

Lemma camera_delete_releases_listener_witness :
  w_faults (camera_delete sdk 64%N 1%N attached) = w_faults attached
  /\ w_heap (camera_delete sdk 64%N 1%N attached) !! 1%N = None.
Proof.
  destruct (camera_delete_releases_listener sdk 64%N 1%N
              (DataListener on_frame context) attached)
    as (Hfaults & Hdead & _).
  { discriminate. }
  { vm_compute. reflexivity. }
  split; [exact Hfaults | exact Hdead].
Defined.

Lemma camera_get_exposure_mode_failure_witness :
  fst (camera_get_exposure_mode BenchFailing.sdk AUTOMATIC 64%N
         is_manual_cell (world healthy)) = static_cast_int runtime_error
  /\ w_mem (snd (camera_get_exposure_mode BenchFailing.sdk AUTOMATIC 64%N
                   is_manual_cell (world healthy))) = caller_mem.
Proof.
  destruct (camera_get_exposure_mode_failure BenchFailing.sdk AUTOMATIC 64%N
              is_manual_cell (world healthy) runtime_error MANUAL healthy)
    as (Hret & _ & Hmem & _).
  { reflexivity. }
  { discriminate. }
  split; [exact Hret | exact Hmem].
Defined.

Lemma c_string_cut_at_first_null_byte_witness :
  let r := string_vector_get vector_at_5 0
             (world_with_vector [split_name]) in
  w_heap (snd r) !! fst r =
    Some (mkBlock ArrayForm
            (ObjChars [Some "A"; Some "B"; Some x00; None; None]%byte))
  /\ holds_c_string (snd r) (fst r) ["A"; "B"]%byte = true
  /\ w_faults (snd r) = [].
Proof.
  destruct (c_string_cut_at_first_null_byte sdk) as [_ Hget].
  apply (Hget vector_at_5 0 ScalarForm
           [split_name] ["A"; "B"]%byte ["C"; "D"]%byte
           (world_with_vector [split_name])).
  - vm_compute. reflexivity.
  - lia.
  - reflexivity.
  - repeat constructor; discriminate.
Defined.

Lemma string_vector_get_is_fresh_copy_witness :
  let w := world_with_vector [split_name] in
  let r := string_vector_get vector_at_5 0 w in
  fst r ≠ nullptr
  /\ w_faults (snd r) = w_faults w
  /\ w_heap (snd r) !! vector_at_5
       = Some (mkBlock ScalarForm (ObjStringVector [split_name]))
  /\ w_mem (snd r) = w_mem w
  /\ fst (string_vector_get vector_at_5 0 (snd r)) ≠ fst r.
Proof.
  destruct (string_vector_get_is_fresh_copy vector_at_5 0
              ScalarForm [split_name] ["A"; "B"]%byte ["C"; "D"]%byte
              (world_with_vector [split_name]))
    as (Hnn & _ & Hfaults & _ & Hvec & Hmem & Hdiff).
  { vm_compute. reflexivity. }
  { lia. }
  { reflexivity. }
  { repeat constructor; discriminate. }
  split; [exact Hnn |]. split; [exact Hfaults |].
  split; [exact Hvec |]. split; [exact Hmem | exact Hdiff].
Defined.

Lemma use_cases_round_trip_witness :
  let w := world_with_vector [] in
  let r := camera_get_use_cases BenchFailing.sdk 64%N
             vector_at_5 w in
  fst r = static_cast_int device_is_busy
  /\ fst (string_vector_length vector_at_5 (snd r)) = 1
  /\ (let g := string_vector_get vector_at_5 0 (snd r) in
      w_heap (snd g) !! fst g
        = Some (mkBlock ArrayForm
                  (ObjChars (Some <$> BenchFailing.half_name)))).
Proof.
  destruct (use_cases_round_trip BenchFailing.sdk 64%N
              vector_at_5 ScalarForm [] [BenchFailing.half_name]
              device_is_busy healthy (world_with_vector []))
    as (Hret & Hlen & Hget & _).
  { vm_compute. reflexivity. }
  { reflexivity. }
  split; [exact Hret |]. split; [exact Hlen |].
  apply (Hget 0%nat BenchFailing.half_name).
  - reflexivity.
  - repeat constructor; discriminate.
Defined.

Lemma camera_get_exposure_limits_read_back_witness :
  let r := camera_get_exposure_limits sdk 64%N low_cell low_cell
             (world healthy) in
  is_camera_status_success sdk (fst r) = true
  /\ w_mem (snd r) !! low_cell = Some (VU32 2000).
Proof.
  destruct (camera_get_exposure_limits_read_back sdk 64%N low_cell low_cell
              (world healthy) (mkPair 50 2000) healthy)
    as (Hret & Hhigh & _).
  { reflexivity. }
  split; [exact Hret | exact Hhigh].
Defined.

End MoreBenchRuns.
